(** * schema-to-template-context: the schema-normalisation stage

    A shallow embedding of
    [packages/graphql-codegen-core/src/schema/schema-to-template-context.ts]
    and the properties of its three functions, [clearTypes],
    [includeIntrospectionTypes] and [schemaToTemplateContext].

    The code of the file itself is embedded at the level of the JavaScript
    it is written in: a type map is an object with own properties, created
    in some order and enumerated by [Object.keys]; [obj[key] = v] is the
    assignment on an object literal; a thrown [Error] is the left summand
    of the result.  The packages the file imports ([graphql],
    [graphql-toolkit]) are embedded at the level of their documented
    behaviour, and the per-kind transformers, which live in sibling files,
    are the operations of an interface. *)

From Stdlib Require Import List String Ascii Bool Arith NArith Lia.
From Stdlib Require Import Sorted Permutation.
Import ListNotations.
Open Scope string_scope.
Open Scope list_scope.

(* ================================================================== *)
(** ** JavaScript values used by the file *)

Module JS.

(** [Array.prototype.includes] on an array of strings. *)
Definition includes (l : list string) (x : string) : bool :=
  existsb (String.eqb x) l.

(** [s.startsWith(p)]. *)
Definition startsWith (s p : string) : bool := String.prefix p s.

(** *** Array indices

    A property key is an array index when it is the canonical decimal
    form of an integer in [0, 2^32 - 2].  Such keys are enumerated before
    the other keys, in ascending numeric order. *)

Definition digit (c : ascii) : option N :=
  let n := N_of_ascii c in
  if ((48 <=? n) && (n <=? 57))%N then Some (n - 48)%N else None.

Fixpoint digits (s : string) (acc : N) : option N :=
  match s with
  | EmptyString => Some acc
  | String c r =>
      match digit c with
      | Some d => digits r (acc * 10 + d)%N
      | None => None
      end
  end.

Definition arrayIndex (k : string) : option N :=
  match k with
  | EmptyString => None
  | String c r =>
      if Ascii.eqb c "0"%char then
        match r with EmptyString => Some 0%N | _ => None end
      else
        match digits k 0 with
        | Some n => if (n <? 2 ^ 32 - 1)%N then Some n else None
        | None => None
        end
  end.

Definition isArrayIndex (k : string) : bool :=
  match arrayIndex k with Some _ => true | None => false end.

(** The index keys of a list of keys, each with its numeric value. *)
Fixpoint indexKeys (ks : list string) : list (N * string) :=
  match ks with
  | [] => []
  | k :: r =>
      match arrayIndex k with
      | Some n => (n, k) :: indexKeys r
      | None => indexKeys r
      end
  end.

Fixpoint insertIndex (x : N * string) (l : list (N * string))
  : list (N * string) :=
  match l with
  | [] => [x]
  | y :: r => if (fst x <=? fst y)%N then x :: l else y :: insertIndex x r
  end.

Definition sortIndex (l : list (N * string)) : list (N * string) :=
  fold_right insertIndex [] l.

(** Ascending numeric order, and index keys paired with their value. *)
Definition byIndex (x y : N * string) : Prop := (fst x <= fst y)%N.

Definition indexed (p : N * string) : Prop :=
  arrayIndex (snd p) = Some (fst p).

(** The enumeration order of a list of keys given in creation order. *)
Definition enumerate (ks : list string) : list string :=
  map snd (sortIndex (indexKeys ks))
    ++ filter (fun k => negb (isArrayIndex k)) ks.

(** *** Objects used as maps

    An object is the list of its own enumerable string-keyed data
    properties, in the order they were created. *)

Definition object (V : Type) : Type := list (string * V).

Section Object.
Context {V : Type}.

Definition ownNames (o : object V) : list string := map fst o.

(** Well-formed objects have no repeated property. *)
Definition wf (o : object V) : Prop := NoDup (ownNames o).

(** [o[k]] for an own property; [None] is [undefined]. *)
Fixpoint get (o : object V) (k : string) : option V :=
  match o with
  | [] => None
  | (k', v) :: r => if String.eqb k k' then Some v else get r k
  end.

(** [Object.keys(o)]. *)
Definition keys (o : object V) : list string := enumerate (ownNames o).

(** Writing an own data property: an existing property keeps its
    place, a new one is created last. *)
Fixpoint define (o : object V) (k : string) (v : V) : object V :=
  match o with
  | [] => [(k, v)]
  | (k', v') :: r =>
      if String.eqb k k' then (k', v) :: r else (k', v') :: define r k v
  end.

(** [o[k] = v] on an object that started as the literal [{}].  Such an
    object inherits the accessor [__proto__] of [Object.prototype]: an
    assignment to that key runs the setter, which replaces the
    prototype of [o] and creates no own property.  Every other key is
    written as an own data property. *)
Definition assign (o : object V) (k : string) (v : V) : object V :=
  if String.eqb k "__proto__" then o else define o k v.

End Object.

End JS.

(* ================================================================== *)
(** ** The [graphql] package *)

Module GraphQL.

(** The class of which a type object is an instance.  The six classes are
    those of the copy of [graphql] this file imports; an object built by
    another copy of the package is an instance of none of them. *)
Inductive TypeClass : Type :=
| GraphQLObjectType
| GraphQLInputObjectType
| GraphQLEnumType
| GraphQLUnionType
| GraphQLInterfaceType
| GraphQLScalarType
| ForeignClass.

(** A directive applied on a definition, [@name(arguments)]. *)
Record DirectiveNode : Type := {
  directiveName : string;
  directiveArguments : list (string * string)
}.

(** The definition node a schema or type was built from. *)
Record ASTNode : Type := { directives : list DirectiveNode }.

(** A named type object.  [ref] is the identity of the object: two
    objects are the same object exactly when they are equal here. *)
Record GraphQLNamedType : Type := {
  ref : nat;
  name : string;
  class : TypeClass;
  astNode : option ASTNode
}.

(** A type as a field declares it: a named type under list and non-null
    wrappers. *)
Inductive GraphQLType : Type :=
| Named (t : GraphQLNamedType)
| GraphQLList (ofType : GraphQLType)
| GraphQLNonNull (ofType : GraphQLType).

(** A directive declaration. *)
Record GraphQLDirective : Type := {
  declaredName : string;
  locations : list string
}.

Record GraphQLSchema : Type := {
  getTypeMap : JS.object GraphQLNamedType;
  getDirectives : list GraphQLDirective;
  schemaNode : option ASTNode
}.

Definition TypeClass_eq_dec (a b : TypeClass) : {a = b} + {a <> b}.
Proof. decide equality. Defined.

Definition DirectiveNode_eq_dec (a b : DirectiveNode) : {a = b} + {a <> b}.
Proof.
  decide equality.
  - apply (list_eq_dec (fun x y : string * string =>
             ltac:(decide equality; apply string_dec))).
  - apply string_dec.
Defined.

Definition ASTNode_eq_dec (a b : ASTNode) : {a = b} + {a <> b}.
Proof. decide equality. apply (list_eq_dec DirectiveNode_eq_dec). Defined.

Definition GraphQLNamedType_eq_dec (a b : GraphQLNamedType)
  : {a = b} + {a <> b}.
Proof.
  decide equality.
  - decide equality. apply ASTNode_eq_dec.
  - apply TypeClass_eq_dec.
  - apply string_dec.
  - apply Nat.eq_dec.
Defined.

(** [a === b] on type objects. *)
Definition sameObject (a b : GraphQLNamedType) : bool :=
  if GraphQLNamedType_eq_dec a b then true else false.

(** [getNamedType(type)]: strips the wrappers; [undefined] stays
    [undefined]. *)
Fixpoint unwrap (t : GraphQLType) : GraphQLNamedType :=
  match t with
  | Named n => n
  | GraphQLList t' => unwrap t'
  | GraphQLNonNull t' => unwrap t'
  end.

Definition getNamedType (t : option GraphQLType) : option GraphQLNamedType :=
  option_map unwrap t.

(** The names of the types of the introspection system. *)
Definition introspectionTypes : list string :=
  ["__Schema"; "__Directive"; "__DirectiveLocation"; "__Type";
   "__Field"; "__InputValue"; "__EnumValue"; "__TypeKind"].

(** [isNamedType(type)]: an instance of one of the six classes. *)
Definition isNamedType (t : option GraphQLNamedType) : bool :=
  match t with
  | Some n => match class n with ForeignClass => false | _ => true end
  | None => false
  end.

(** [isIntrospectionType(type)]: a named type whose name is that of an
    introspection type. *)
Definition isIntrospectionType (t : option GraphQLNamedType) : bool :=
  isNamedType t
  && match t with
     | Some n => JS.includes introspectionTypes (name n)
     | None => false
     end.

(** [isEnumType(type)]: [type instanceof GraphQLEnumType]. *)
Definition isEnumType (t : option GraphQLNamedType) : bool :=
  match t with
  | Some n => if TypeClass_eq_dec (class n) GraphQLEnumType then true else false
  | None => false
  end.

(** *** Traversal of documents

    [visit(doc, visitWithTypeInfo(typeInfo, { Field }))] enters the
    [Field] nodes of [doc] one by one, in document order, and at each of
    them [typeInfo.getType()] is the type the schema gives the field, or
    [undefined] when the schema has no such field.
    [visitedFieldTypes schema doc] is the sequence of these types. *)
Class Traversal : Type := {
  DocumentNode : Type;
  visitedFieldTypes :
    GraphQLSchema -> DocumentNode -> list (option GraphQLType)
}.

End GraphQL.

(* ================================================================== *)
(** ** The [graphql-toolkit] package *)

Module Toolkit.
Import GraphQL.

(** What a directive can be read from: the schema or one of its types. *)
Inductive DirectiveUsage : Type :=
| OfSchema (schema : GraphQLSchema)
| OfType (type : GraphQLNamedType).

(** [node.astNode]. *)
Definition astNodeOf (node : DirectiveUsage) : option ASTNode :=
  match node with
  | OfSchema s => schemaNode s
  | OfType t => astNode t
  end.

Definition DirectiveUseMap : Type := JS.object (list (string * string)).

(** [getDirectiveValues(directive, node)] of [graphql]: the arguments of
    the first application of [directive] on [node], if there is one. *)
Definition getDirectiveValues (d : GraphQLDirective) (n : ASTNode)
  : option (list (string * string)) :=
  option_map directiveArguments
    (find (fun a => String.eqb (directiveName a) (declaredName d))
          (directives n)).

(** [getDirectives(schema, node)] is the map, keyed by directive name, of
    the directives declared by [schema] that are applied on the
    definition node of [node], each with its argument values.  A [node]
    without definition node has the empty map.  The map starts as the
    literal [{}] and is filled by [result[directive.name] = ...]. *)
Definition getDirectives (schema : GraphQLSchema) (node : DirectiveUsage)
  : DirectiveUseMap :=
  match astNodeOf node with
  | None => []
  | Some n =>
      fold_left
        (fun result d =>
           match getDirectiveValues d n with
           | Some v => JS.assign result (declaredName d) v
           | None => result
           end)
        (GraphQL.getDirectives schema) []
  end.

End Toolkit.


(* ================================================================== *)
(** ** The sibling files of the package *)

(** The records of [../types] a context is made of, and the transformers
    of [./transform-object], [./transform-enum], [./transform-union],
    [./transform-interface], [./transform-scalar] and
    [./transform-directives] that build them: functions of the schema and
    of the type they are given. *)
Class Transformers : Type := {
  TType : Type;
  TEnum : Type;
  TUnion : Type;
  TInterface : Type;
  TScalar : Type;
  TDirective : Type;
  transformGraphQLObject :
    GraphQL.GraphQLSchema -> GraphQL.GraphQLNamedType -> TType;
  transformGraphQLEnum :
    GraphQL.GraphQLSchema -> GraphQL.GraphQLNamedType -> TEnum;
  transformUnion :
    GraphQL.GraphQLSchema -> GraphQL.GraphQLNamedType -> TUnion;
  transformInterface :
    GraphQL.GraphQLSchema -> GraphQL.GraphQLNamedType -> TInterface;
  transformScalar :
    GraphQL.GraphQLSchema -> GraphQL.GraphQLNamedType -> TScalar;
  transformDirectives :
    GraphQL.GraphQLSchema -> list GraphQL.GraphQLDirective -> list TDirective
}.

(** An element of the array [objectMapToArray] returns. *)
Record Entry (V : Type) : Type := { key : string; value : V }.
Arguments key {V} _.
Arguments value {V} _.

(** Modelled from the spec: [objectMapToArray] of
    [../utils/object-map-to-array], whose source is missing.  It turns the
    filtered map into the "filtered ordered list" of its entries: one
    [{ key, value }] per key, in the iteration order of the map. *)
Definition objectMapToArray {V : Type} (objectMap : JS.object V)
  : list (Entry V) :=
  flat_map
    (fun k =>
       match JS.get objectMap k with
       | Some v => [{| key := k; value := v |}]
       | None => []
       end)
    (JS.keys objectMap).

(* ================================================================== *)
(** ** schema-to-template-context.ts *)

Import GraphQL.

Definition GRAPHQL_PRIMITIVES : list string :=
  ["String"; "Int"; "Boolean"; "ID"; "Float"].

Definition GraphQLTypesMap : Type := JS.object GraphQLNamedType.

(** The predicate [clearTypes] filters the keys with. *)
Definition keeps (forcedTypes : list string) (key : string) : bool :=
  JS.includes forcedTypes key
  || (negb (JS.includes GRAPHQL_PRIMITIVES key)
      && negb (JS.startsWith key "__")).

(** The step of the [reduce] of [clearTypes]: [obj[key] = typesMap[key]].
    The keys it is run on are keys of [typesMap], so that [typesMap[key]]
    is never [undefined] there.  The values are type objects, which carry
    no setter and no read-only property: one of them becoming the
    prototype of [obj] does not change what later assignments do. *)
Definition copyKey (typesMap : GraphQLTypesMap)
  (obj : GraphQLTypesMap) (key : string) : GraphQLTypesMap :=
  match JS.get typesMap key with
  | Some v => JS.assign obj key v
  | None => obj
  end.

Definition clearTypes (typesMap : GraphQLTypesMap)
  (forcedTypes : list string) : GraphQLTypesMap :=
  fold_left (copyKey typesMap)
    (filter (keeps forcedTypes) (JS.keys typesMap))
    [].

(** The keys an assignment on an object literal writes as own property. *)
Definition notProto (k : string) : bool := negb (String.eqb k "__proto__").

(** The keys of [typesMap] that are keys of the result of [clearTypes]:
    those the filter keeps and the [reduce] then writes as own
    properties. *)
Definition survives (forcedTypes : list string) (key : string) : bool :=
  keeps forcedTypes key && notProto key.

(** What a call ends with: a returned value or a thrown error. *)
Inductive Thrown : Type :=
| UnexpectedGraphQLTypeDefinition
    (key : string) (actualTypeDef : GraphQLNamedType).

Inductive Outcome (A : Type) : Type :=
| Return (a : A)
| Throw (e : Thrown).
Arguments Return {A} a.
Arguments Throw {A} e.

Definition bind {A B : Type} (m : Outcome A) (f : A -> Outcome B)
  : Outcome B :=
  match m with
  | Return a => f a
  | Throw e => Throw e
  end.

(** [array.map(f)] for a callback run for its effect on a state: the
    elements in order, stopping at the first that throws. *)
Fixpoint forEachM {A S : Type} (f : S -> A -> Outcome S) (l : list A) (s : S)
  : Outcome S :=
  match l with
  | [] => Return s
  | a :: r => bind (f s a) (forEachM f r)
  end.

Section Context_.
Context {traversal : Traversal} {transformers : Transformers}.

Record DocumentFile : Type := {
  filePath : string;
  content : DocumentNode
}.

Record SchemaTemplateContext : Type := {
  types : list TType;
  inputTypes : list TType;
  enums : list TEnum;
  unions : list TUnion;
  scalars : list TScalar;
  interfaces : list TInterface;
  definedDirectives : list TDirective;
  hasTypes : bool;
  hasInputTypes : bool;
  hasEnums : bool;
  hasUnions : bool;
  hasScalars : bool;
  hasInterfaces : bool;
  hasDefinedDirectives : bool;
  rawSchema : GraphQLSchema;
  directives : Toolkit.DirectiveUseMap;
  usesDirectives : bool
}.

(** The assignments and [push]es the function makes on [result]. *)
Definition pushTypes (r : SchemaTemplateContext) (x : TType) :=
  {| types := types r ++ [x]; inputTypes := inputTypes r; enums := enums r;
     unions := unions r; scalars := scalars r; interfaces := interfaces r;
     definedDirectives := definedDirectives r;
     hasTypes := hasTypes r; hasInputTypes := hasInputTypes r;
     hasEnums := hasEnums r; hasUnions := hasUnions r;
     hasScalars := hasScalars r; hasInterfaces := hasInterfaces r;
     hasDefinedDirectives := hasDefinedDirectives r;
     rawSchema := rawSchema r; directives := directives r;
     usesDirectives := usesDirectives r |}.

Definition pushInputTypes (r : SchemaTemplateContext) (x : TType) :=
  {| types := types r; inputTypes := inputTypes r ++ [x]; enums := enums r;
     unions := unions r; scalars := scalars r; interfaces := interfaces r;
     definedDirectives := definedDirectives r;
     hasTypes := hasTypes r; hasInputTypes := hasInputTypes r;
     hasEnums := hasEnums r; hasUnions := hasUnions r;
     hasScalars := hasScalars r; hasInterfaces := hasInterfaces r;
     hasDefinedDirectives := hasDefinedDirectives r;
     rawSchema := rawSchema r; directives := directives r;
     usesDirectives := usesDirectives r |}.

Definition pushEnums (r : SchemaTemplateContext) (x : TEnum) :=
  {| types := types r; inputTypes := inputTypes r; enums := enums r ++ [x];
     unions := unions r; scalars := scalars r; interfaces := interfaces r;
     definedDirectives := definedDirectives r;
     hasTypes := hasTypes r; hasInputTypes := hasInputTypes r;
     hasEnums := hasEnums r; hasUnions := hasUnions r;
     hasScalars := hasScalars r; hasInterfaces := hasInterfaces r;
     hasDefinedDirectives := hasDefinedDirectives r;
     rawSchema := rawSchema r; directives := directives r;
     usesDirectives := usesDirectives r |}.

Definition pushUnions (r : SchemaTemplateContext) (x : TUnion) :=
  {| types := types r; inputTypes := inputTypes r; enums := enums r;
     unions := unions r ++ [x]; scalars := scalars r;
     interfaces := interfaces r;
     definedDirectives := definedDirectives r;
     hasTypes := hasTypes r; hasInputTypes := hasInputTypes r;
     hasEnums := hasEnums r; hasUnions := hasUnions r;
     hasScalars := hasScalars r; hasInterfaces := hasInterfaces r;
     hasDefinedDirectives := hasDefinedDirectives r;
     rawSchema := rawSchema r; directives := directives r;
     usesDirectives := usesDirectives r |}.

Definition pushInterfaces (r : SchemaTemplateContext) (x : TInterface) :=
  {| types := types r; inputTypes := inputTypes r; enums := enums r;
     unions := unions r; scalars := scalars r;
     interfaces := interfaces r ++ [x];
     definedDirectives := definedDirectives r;
     hasTypes := hasTypes r; hasInputTypes := hasInputTypes r;
     hasEnums := hasEnums r; hasUnions := hasUnions r;
     hasScalars := hasScalars r; hasInterfaces := hasInterfaces r;
     hasDefinedDirectives := hasDefinedDirectives r;
     rawSchema := rawSchema r; directives := directives r;
     usesDirectives := usesDirectives r |}.

Definition pushScalars (r : SchemaTemplateContext) (x : TScalar) :=
  {| types := types r; inputTypes := inputTypes r; enums := enums r;
     unions := unions r; scalars := scalars r ++ [x];
     interfaces := interfaces r;
     definedDirectives := definedDirectives r;
     hasTypes := hasTypes r; hasInputTypes := hasInputTypes r;
     hasEnums := hasEnums r; hasUnions := hasUnions r;
     hasScalars := hasScalars r; hasInterfaces := hasInterfaces r;
     hasDefinedDirectives := hasDefinedDirectives r;
     rawSchema := rawSchema r; directives := directives r;
     usesDirectives := usesDirectives r |}.

Definition setDefinedDirectives (r : SchemaTemplateContext)
  (ds : list TDirective) :=
  {| types := types r; inputTypes := inputTypes r; enums := enums r;
     unions := unions r; scalars := scalars r; interfaces := interfaces r;
     definedDirectives := ds;
     hasTypes := hasTypes r; hasInputTypes := hasInputTypes r;
     hasEnums := hasEnums r; hasUnions := hasUnions r;
     hasScalars := hasScalars r; hasInterfaces := hasInterfaces r;
     hasDefinedDirectives := hasDefinedDirectives r;
     rawSchema := rawSchema r; directives := directives r;
     usesDirectives := usesDirectives r |}.

(** [xs.length > 0]. *)
Definition nonEmpty {A : Type} (xs : list A) : bool :=
  Nat.ltb 0 (List.length xs).

(** The seven assignments of the indicators, in the order of the source. *)
Definition setIndicators (r : SchemaTemplateContext) :=
  {| types := types r; inputTypes := inputTypes r; enums := enums r;
     unions := unions r; scalars := scalars r; interfaces := interfaces r;
     definedDirectives := definedDirectives r;
     hasTypes := nonEmpty (types r);
     hasInputTypes := nonEmpty (inputTypes r);
     hasEnums := nonEmpty (enums r);
     hasUnions := nonEmpty (unions r);
     hasScalars := nonEmpty (scalars r);
     hasInterfaces := nonEmpty (interfaces r);
     hasDefinedDirectives := nonEmpty (definedDirectives r);
     rawSchema := rawSchema r; directives := directives r;
     usesDirectives := usesDirectives r |}.

(** The callback of the [Field] visitor: one step on [typesToInclude]. *)
Definition Field (typesToInclude : list GraphQLNamedType)
  (getType : option GraphQLType) : list GraphQLNamedType :=
  let type := getNamedType getType in
  match type with
  | Some t =>
      if isIntrospectionType type && isEnumType type
         && negb (existsb (sameObject t) typesToInclude)
      then typesToInclude ++ [t]
      else typesToInclude
  | None => typesToInclude
  end.

Definition includeIntrospectionTypes (schema : GraphQLSchema)
  (documents : option (list DocumentFile)) : list GraphQLNamedType :=
  match documents with
  | Some docs =>
      fold_left
        (fun typesToInclude doc =>
           fold_left Field (visitedFieldTypes schema (content doc))
             typesToInclude)
        docs []
  | None => []
  end.

(** The body of the callback of [typesArray.map]. *)
Definition dispatch (schema : GraphQLSchema) (result : SchemaTemplateContext)
  (graphQlType : Entry GraphQLNamedType) : Outcome SchemaTemplateContext :=
  let actualTypeDef := value graphQlType in
  match class actualTypeDef with
  | GraphQLObjectType =>
      Return (pushTypes result (transformGraphQLObject schema actualTypeDef))
  | GraphQLInputObjectType =>
      Return (pushInputTypes result
                (transformGraphQLObject schema actualTypeDef))
  | GraphQLEnumType =>
      Return (pushEnums result (transformGraphQLEnum schema actualTypeDef))
  | GraphQLUnionType =>
      Return (pushUnions result (transformUnion schema actualTypeDef))
  | GraphQLInterfaceType =>
      Return (pushInterfaces result (transformInterface schema actualTypeDef))
  | GraphQLScalarType =>
      Return (pushScalars result (transformScalar schema actualTypeDef))
  | ForeignClass =>
      Throw (UnexpectedGraphQLTypeDefinition (key graphQlType) actualTypeDef)
  end.

(** [result] as the object literal of the source creates it. *)
Definition initialResult (schema : GraphQLSchema)
  (directives : Toolkit.DirectiveUseMap) : SchemaTemplateContext :=
  {| types := []; inputTypes := []; enums := []; unions := [];
     scalars := []; interfaces := []; definedDirectives := [];
     hasTypes := false; hasInputTypes := false; hasEnums := false;
     hasUnions := false; hasScalars := false; hasInterfaces := false;
     hasDefinedDirectives := false;
     rawSchema := schema;
     directives := directives;
     usesDirectives := nonEmpty (JS.keys directives) |}.

(** The array the callback is mapped over. *)
Definition typesArrayOf (schema : GraphQLSchema)
  (documents : option (list DocumentFile)) : list (Entry GraphQLNamedType) :=
  let introspectionTypesToInclude :=
    includeIntrospectionTypes schema documents in
  let rawTypesMap := getTypeMap schema in
  let typesMap :=
    clearTypes rawTypesMap (map name introspectionTypesToInclude) in
  objectMapToArray typesMap.

Definition schemaToTemplateContext (schema : GraphQLSchema)
  (documents : option (list DocumentFile)) : Outcome SchemaTemplateContext :=
  let directives := Toolkit.getDirectives schema (Toolkit.OfSchema schema) in
  let result := initialResult schema directives in
  let typesArray := typesArrayOf schema documents in
  bind (forEachM (dispatch schema) typesArray result)
    (fun result =>
       let result :=
         setDefinedDirectives result
           (transformDirectives schema (GraphQL.getDirectives schema)) in
       Return (setIndicators result)).

(** *** The fields the collector sees

    The types of the [Field] nodes of all the documents, in the order the
    traversal enters them; the type a field qualifies, if it does; and the
    qualifying types in the order of their fields. *)
Definition visitedTypes (schema : GraphQLSchema) (docs : list DocumentFile)
  : list (option GraphQLType) :=
  flat_map (fun doc => visitedFieldTypes schema (content doc)) docs.

Definition qualifies (getType : option GraphQLType)
  : option GraphQLNamedType :=
  match getNamedType getType with
  | Some t =>
      if isIntrospectionType (Some t) && isEnumType (Some t)
      then Some t else None
  | None => None
  end.

Definition qualifying (l : list (option GraphQLType))
  : list GraphQLNamedType :=
  flat_map (fun ty => match qualifies ty with Some t => [t] | None => [] end)
           l.

(** The position of the first occurrence of an object in a list (the
    length of the list when it does not occur). *)
Fixpoint firstIndex (t : GraphQLNamedType) (l : list GraphQLNamedType)
  : nat :=
  match l with
  | [] => 0
  | x :: r => if sameObject t x then 0 else S (firstIndex t r)
  end.

(** The state of [typesToInclude] after the fields of [l]. *)
Definition collected (l : list (option GraphQLType))
  (res : list GraphQLNamedType) : Prop :=
  NoDup res
  /\ (forall t, In t res <-> In t (qualifying l))
  /\ (forall i j t u,
        nth_error res i = Some t -> nth_error res j = Some u -> i < j ->
        firstIndex t (qualifying l) < firstIndex u (qualifying l)).

(** *** The provenance of the output lists

    The six output lists, the list each class of type is pushed on by the
    chain of [instanceof] tests, and the entries of an array that go to a
    given list. *)
Inductive OutputList : Type :=
| Types | InputTypes | Enums | Unions | Interfaces | Scalars.

Definition OutputList_eq_dec (a b : OutputList) : {a = b} + {a <> b}.
Proof. decide equality. Defined.

Definition route (c : TypeClass) : option OutputList :=
  match c with
  | GraphQLObjectType => Some Types
  | GraphQLInputObjectType => Some InputTypes
  | GraphQLEnumType => Some Enums
  | GraphQLUnionType => Some Unions
  | GraphQLInterfaceType => Some Interfaces
  | GraphQLScalarType => Some Scalars
  | ForeignClass => None
  end.

Definition goesTo (l : OutputList) (e : Entry GraphQLNamedType) : bool :=
  match route (class (value e)) with
  | Some l' => if OutputList_eq_dec l' l then true else false
  | None => false
  end.

Definition routed (l : OutputList) (arr : list (Entry GraphQLNamedType))
  : list (Entry GraphQLNamedType) :=
  filter (goesTo l) arr.

(** The names that appear in an output list: those of the entries whose
    records the list is made of. *)
Definition namesIn (l : OutputList) (arr : list (Entry GraphQLNamedType))
  : list string :=
  map key (routed l arr).

Definition unclassifiable (e : Entry GraphQLNamedType) : bool :=
  match route (class (value e)) with Some _ => false | None => true end.

(** [result] once the entries of [arr] have been pushed on it. *)
Definition afterLoop (schema : GraphQLSchema) (r : SchemaTemplateContext)
  (arr : list (Entry GraphQLNamedType)) : SchemaTemplateContext :=
  {| types :=
       types r ++ map (fun e => transformGraphQLObject schema (value e))
                      (routed Types arr);
     inputTypes :=
       inputTypes r ++ map (fun e => transformGraphQLObject schema (value e))
                           (routed InputTypes arr);
     enums :=
       enums r ++ map (fun e => transformGraphQLEnum schema (value e))
                      (routed Enums arr);
     unions :=
       unions r ++ map (fun e => transformUnion schema (value e))
                       (routed Unions arr);
     scalars :=
       scalars r ++ map (fun e => transformScalar schema (value e))
                        (routed Scalars arr);
     interfaces :=
       interfaces r ++ map (fun e => transformInterface schema (value e))
                           (routed Interfaces arr);
     definedDirectives := definedDirectives r;
     hasTypes := hasTypes r; hasInputTypes := hasInputTypes r;
     hasEnums := hasEnums r; hasUnions := hasUnions r;
     hasScalars := hasScalars r; hasInterfaces := hasInterfaces r;
     hasDefinedDirectives := hasDefinedDirectives r;
     rawSchema := rawSchema r; directives := directives r;
     usesDirectives := usesDirectives r |}.

(** The output list [l] of [ctx] is made of the records of the entries
    [es], in their order. *)
Definition madeOf (schema : GraphQLSchema) (ctx : SchemaTemplateContext)
  (l : OutputList) (es : list (Entry GraphQLNamedType)) : Prop :=
  match l with
  | Types =>
      types ctx = map (fun e => transformGraphQLObject schema (value e)) es
  | InputTypes =>
      inputTypes ctx
      = map (fun e => transformGraphQLObject schema (value e)) es
  | Enums =>
      enums ctx = map (fun e => transformGraphQLEnum schema (value e)) es
  | Unions =>
      unions ctx = map (fun e => transformUnion schema (value e)) es
  | Interfaces =>
      interfaces ctx = map (fun e => transformInterface schema (value e)) es
  | Scalars =>
      scalars ctx = map (fun e => transformScalar schema (value e)) es
  end.

(** Each output list of [ctx] is made of the records of the entries of
    [arr] that go to it, in their order in [arr]. *)
Definition builtFrom (schema : GraphQLSchema) (ctx : SchemaTemplateContext)
  (arr : list (Entry GraphQLNamedType)) : Prop :=
  forall l, madeOf schema ctx l (routed l arr).

(** The number of records of the six output lists. *)
Definition recordCount (ctx : SchemaTemplateContext) : nat :=
  List.length (types ctx) + List.length (inputTypes ctx)
  + List.length (enums ctx) + List.length (unions ctx)
  + List.length (interfaces ctx) + List.length (scalars ctx).

End Context_.

(* ================================================================== *)
(** ** Directives applied in a schema *)

(** The directives applied on the definition of the schema or of a type. *)
Definition applied (node : Toolkit.DirectiveUsage) : list DirectiveNode :=
  match Toolkit.astNodeOf node with
  | Some n => GraphQL.directives n
  | None => []
  end.

(** A directive is applied somewhere in the schema: on the definition of
    the schema itself or on that of one of its types. *)
Definition appliedSomewhere (schema : GraphQLSchema) : Prop :=
  (exists a, In a (applied (Toolkit.OfSchema schema)))
  \/ (exists k t a,
        JS.get (getTypeMap schema) k = Some t
        /\ In a (applied (Toolkit.OfType t))).

(** A declared directive is applied on the definition of the schema. *)
Definition appliedOnSchema (schema : GraphQLSchema) : Prop :=
  exists d a,
    In d (GraphQL.getDirectives schema)
    /\ In a (applied (Toolkit.OfSchema schema))
    /\ directiveName a = declaredName d.

(* ================================================================== *)
(** ** Sample schemas and documents *)

Module Sample.

(** Documents given by the types of their fields, in document order. *)
Definition traversal : Traversal :=
  {| DocumentNode := list (option GraphQLType);
     visitedFieldTypes := fun _ doc => doc |}.

(** Transformers that keep the name of what they are given. *)
Definition transformers : Transformers :=
  {| TType := string; TEnum := string; TUnion := string;
     TInterface := string; TScalar := string; TDirective := string;
     transformGraphQLObject := fun _ t => name t;
     transformGraphQLEnum := fun _ t => name t;
     transformUnion := fun _ t => name t;
     transformInterface := fun _ t => name t;
     transformScalar := fun _ t => name t;
     transformDirectives := fun _ ds => map declaredName ds |}.

Definition type (r : nat) (n : string) (c : TypeClass) : GraphQLNamedType :=
  {| ref := r; name := n; class := c; astNode := None |}.

Definition Query : GraphQLNamedType := type 1 "Query" GraphQLObjectType.
Definition StringType : GraphQLNamedType := type 2 "String" GraphQLScalarType.
Definition TypeKind : GraphQLNamedType := type 3 "__TypeKind" GraphQLEnumType.
Definition TypeMeta : GraphQLNamedType := type 4 "__Type" GraphQLObjectType.
Definition Zulu : GraphQLNamedType := type 5 "Zulu" GraphQLEnumType.
Definition Alpha : GraphQLNamedType := type 6 "Alpha" GraphQLEnumType.
Definition Mike : GraphQLNamedType := type 7 "Mike" GraphQLEnumType.
Definition Stranger : GraphQLNamedType := type 8 "Stranger" ForeignClass.
Definition Proto : GraphQLNamedType := type 9 "__proto__" GraphQLEnumType.

(** The property of a type map for a type: its name and the object. *)
Definition property (t : GraphQLNamedType) : string * GraphQLNamedType :=
  (name t, t).

(** [type Query], the scalar [String], two introspection types and three
    enums declared in the order [Zulu], [Alpha], [Mike]. *)
Definition schema : GraphQLSchema :=
  {| getTypeMap :=
       [property Query; property StringType; property TypeMeta; property TypeKind;
        property Zulu; property Alpha; property Mike];
     GraphQL.getDirectives := [];
     schemaNode := None |}.

(** The same without any enum of its own. *)
Definition noEnums : GraphQLSchema :=
  {| getTypeMap := [property Query; property StringType; property TypeMeta; property TypeKind];
     GraphQL.getDirectives := [];
     schemaNode := None |}.

(** A schema one type of which was built by another copy of [graphql]. *)
Definition mixed : GraphQLSchema :=
  {| getTypeMap := [property Query; property Stranger; property Zulu];
     GraphQL.getDirectives := [];
     schemaNode := None |}.

(** [{ __type(name: "Query") { kind } }]: the field [__type] has the type
    [__Type], its field [kind] the type [__TypeKind!]. *)
Definition kindQuery : @DocumentFile traversal :=
  {| filePath := "kind.graphql";
     content := ([Some (Named TypeMeta);
                  Some (GraphQLNonNull (Named TypeKind))]
                 : @DocumentNode traversal) |}.

(** [{ __type(name: "Query") { name } }]. *)
Definition nameQuery : @DocumentFile traversal :=
  {| filePath := "name.graphql";
     content := ([Some (Named TypeMeta); Some (Named StringType)]
                 : @DocumentNode traversal) |}.

Definition DirectiveLocation : GraphQLNamedType :=
  type 10 "__DirectiveLocation" GraphQLEnumType.

(** A document whose fields reach [__DirectiveLocation] between two
    fields of type [__TypeKind]. *)
Definition locationsQuery : @DocumentFile traversal :=
  {| filePath := "locations.graphql";
     content := ([Some (GraphQLNonNull (Named TypeKind));
                  Some (GraphQLNonNull
                          (GraphQLList
                             (GraphQLNonNull (Named DirectiveLocation))));
                  Some (Named TypeKind)]
                 : @DocumentNode traversal) |}.

(** [directive @tag on OBJECT | SCHEMA], declared and applied nowhere. *)
Definition tag : GraphQLDirective :=
  {| declaredName := "tag"; locations := ["OBJECT"; "SCHEMA"] |}.

Definition atTag : ASTNode :=
  {| GraphQL.directives :=
       [{| directiveName := "tag"; directiveArguments := [] |}] |}.

Definition bare : ASTNode := {| GraphQL.directives := [] |}.

Definition declaredOnly : GraphQLSchema :=
  {| getTypeMap := [property Query];
     GraphQL.getDirectives := [tag];
     schemaNode := Some bare |}.

(** [type Query @tag], with a schema definition that carries nothing. *)
Definition TaggedQuery : GraphQLNamedType :=
  {| ref := 1; name := "Query"; class := GraphQLObjectType;
     astNode := Some atTag |}.

Definition appliedOnType : GraphQLSchema :=
  {| getTypeMap := [property TaggedQuery];
     GraphQL.getDirectives := [tag];
     schemaNode := Some bare |}.

(** [schema @tag { query: Query }]. *)
Definition appliedOnDefinition : GraphQLSchema :=
  {| getTypeMap := [property Query];
     GraphQL.getDirectives := [tag];
     schemaNode := Some atTag |}.

End Sample.

(* ================================================================== *)
(** ** More sample schemas *)

Module Corner.

(** An object of another copy of [graphql] under a reserved name. *)
Definition Alien : GraphQLNamedType :=
  Sample.type 11 "__Alien" ForeignClass.

Definition Late : GraphQLNamedType :=
  Sample.type 12 "Late" ForeignClass.

(** A schema none of whose type names survives the filter. *)
Definition reservedOnly : GraphQLSchema :=
  {| getTypeMap :=
       [Sample.property Sample.StringType; Sample.property Sample.TypeMeta;
        Sample.property Alien];
     GraphQL.getDirectives := [Sample.tag];
     schemaNode := None |}.

(** A schema with two unclassifiable types, [Stranger] before [Late]. *)
Definition twoStrangers : GraphQLSchema :=
  {| getTypeMap :=
       [Sample.property Sample.Query; Sample.property Sample.Stranger;
        Sample.property Sample.Zulu; Sample.property Late];
     GraphQL.getDirectives := [];
     schemaNode := None |}.

(** [directive @__proto__ on SCHEMA], applied on the schema definition. *)
Definition protoDirective : GraphQLSchema :=
  {| getTypeMap := [Sample.property Sample.Query];
     GraphQL.getDirectives :=
       [{| declaredName := "__proto__"; locations := ["SCHEMA"] |}];
     schemaNode :=
       Some {| GraphQL.directives :=
                 [{| directiveName := "__proto__";
                     directiveArguments := [] |}] |} |}.

End Corner.

(* ================================================================== *)
(** ** Facts about the JavaScript values *)

Module JSFacts.
Import JS.

Lemma includes_In (l : list string) (x : string) :
  includes l x = true <-> In x l.
Proof.
  unfold includes. rewrite existsb_exists. split.
  - intros [y [Hy He]]. apply String.eqb_eq in He. now subst.
  - intros H. exists x. split; [assumption | apply String.eqb_refl].
Qed.

Lemma includes_false (l : list string) (x : string) :
  includes l x = false <-> ~ In x l.
Proof.
  rewrite <- includes_In. destruct (includes l x); split; congruence.
Qed.

(** *** The order of enumeration *)

Lemma insertIndex_perm x l : Permutation (insertIndex x l) (x :: l).
Proof.
  induction l as [|y r IH]; simpl; [reflexivity|].
  destruct (fst x <=? fst y)%N; [reflexivity|].
  rewrite IH. apply perm_swap.
Qed.

Lemma sortIndex_perm l : Permutation (sortIndex l) l.
Proof.
  induction l as [|x r IH]; simpl; [reflexivity|].
  rewrite insertIndex_perm. now constructor.
Qed.

Lemma insertIndex_sorted x l :
  StronglySorted byIndex l -> StronglySorted byIndex (insertIndex x l).
Proof.
  induction 1 as [|y r Hr IH Hy]; simpl.
  - repeat constructor.
  - destruct (fst x <=? fst y)%N eqn:E.
    + apply N.leb_le in E. constructor.
      * now constructor.
      * constructor; [exact E|].
        rewrite Forall_forall in *. intros z Hz.
        specialize (Hy z Hz). unfold byIndex in *. lia.
    + apply N.leb_gt in E. constructor; [exact IH|].
      rewrite Forall_forall in *. intros z Hz.
      apply (Permutation_in _ (insertIndex_perm x r)) in Hz.
      destruct Hz as [<-|Hz]; [unfold byIndex; lia | now apply Hy].
Qed.

Lemma sortIndex_sorted l : StronglySorted byIndex (sortIndex l).
Proof.
  induction l; simpl; [constructor | now apply insertIndex_sorted].
Qed.

Lemma sortIndex_of_sorted l : StronglySorted byIndex l -> sortIndex l = l.
Proof.
  induction 1 as [|x r Hr IH Hx]; simpl; [reflexivity|].
  rewrite IH. destruct r as [|y r']; simpl; [reflexivity|].
  inversion Hx as [|? ? Hxy _]; subst. unfold byIndex in Hxy.
  apply N.leb_le in Hxy. now rewrite Hxy.
Qed.

Lemma filter_sorted (q : N * string -> bool) l :
  StronglySorted byIndex l -> StronglySorted byIndex (filter q l).
Proof.
  induction 1 as [|x r Hr IH Hx]; simpl; [constructor|].
  destruct (q x); [|exact IH]. constructor; [exact IH|].
  rewrite Forall_forall in *. intros z Hz.
  apply filter_In in Hz. now apply Hx.
Qed.

Lemma indexKeys_indexed ks : Forall indexed (indexKeys ks).
Proof.
  induction ks as [|k r IH]; simpl; [constructor|].
  destruct (arrayIndex k) eqn:E; [constructor|]; auto.
Qed.

Lemma indexKeys_app xs ys : indexKeys (xs ++ ys) = indexKeys xs ++ indexKeys ys.
Proof.
  induction xs as [|k r IH]; simpl; [reflexivity|].
  destruct (arrayIndex k); simpl; now rewrite IH.
Qed.

Lemma indexKeys_none ks :
  Forall (fun k => isArrayIndex k = false) ks -> indexKeys ks = [].
Proof.
  induction 1 as [|k r Hk _ IH]; simpl; [reflexivity|].
  unfold isArrayIndex in Hk. destruct (arrayIndex k); [discriminate|exact IH].
Qed.

Lemma indexKeys_map_snd l : Forall indexed l -> indexKeys (map snd l) = l.
Proof.
  induction 1 as [|[n k] r Hx _ IH]; simpl; [reflexivity|].
  unfold indexed in Hx. simpl in Hx. now rewrite Hx, IH.
Qed.

Lemma indexKeys_In n k ks :
  In (n, k) (indexKeys ks) <-> In k ks /\ arrayIndex k = Some n.
Proof.
  induction ks as [|k' r IH]; simpl; [tauto|].
  destruct (arrayIndex k') eqn:E; simpl; rewrite IH; split.
  - intros [H|H]; [inversion H; subst; auto | tauto].
  - intros [[->|H] Hn]; [left; congruence | auto].
  - tauto.
  - intros [[->|H] Hn]; [congruence | auto].
Qed.

Lemma map_snd_filter (p : string -> bool) (l : list (N * string)) :
  filter p (map snd l) = map snd (filter (fun x => p (snd x)) l).
Proof.
  induction l as [|x r IH]; simpl; [reflexivity|].
  destruct (p (snd x)); simpl; now rewrite IH.
Qed.

Lemma filter_all {A} (p : A -> bool) l :
  Forall (fun x => p x = true) l -> filter p l = l.
Proof.
  induction 1 as [|x r Hx _ IH]; simpl; [reflexivity|]. now rewrite Hx, IH.
Qed.

Lemma filter_none {A} (p : A -> bool) l :
  Forall (fun x => p x = false) l -> filter p l = [].
Proof.
  induction 1 as [|x r Hx _ IH]; simpl; [reflexivity|]. now rewrite Hx.
Qed.

Lemma filter_comm {A} (p q : A -> bool) l :
  filter p (filter q l) = filter q (filter p l).
Proof.
  induction l as [|x r IH]; simpl; [reflexivity|].
  destruct (p x) eqn:Ep, (q x) eqn:Eq; simpl; rewrite ?Ep, ?Eq, IH; reflexivity.
Qed.

Lemma Forall_filter {A} (P : A -> Prop) (p : A -> bool) l :
  Forall P l -> Forall P (filter p l).
Proof.
  rewrite !Forall_forall. intros H x Hx. apply filter_In in Hx. now apply H.
Qed.

(** The index part of an enumeration consists of index keys, the rest of
    the other keys. *)
Lemma sorted_part_index ks :
  Forall (fun k => isArrayIndex k = true) (map snd (sortIndex (indexKeys ks))).
Proof.
  rewrite Forall_forall. intros k Hk. apply in_map_iff in Hk.
  destruct Hk as [[n k'] [Hs Hin]]. simpl in Hs. subst k'.
  apply (Permutation_in _ (sortIndex_perm _)) in Hin.
  apply indexKeys_In in Hin. unfold isArrayIndex. now rewrite (proj2 Hin).
Qed.

Lemma sorted_indexed ks : Forall indexed (sortIndex (indexKeys ks)).
Proof.
  eapply Permutation_Forall; [symmetry; apply sortIndex_perm|].
  apply indexKeys_indexed.
Qed.

Lemma rest_part_not_index ks :
  Forall (fun k => isArrayIndex k = false)
         (filter (fun k => negb (isArrayIndex k)) ks).
Proof.
  rewrite Forall_forall. intros k Hk. apply filter_In in Hk.
  now apply negb_true_iff.
Qed.

(** Enumerating keeps the keys, their number and their distinctness. *)
Lemma indexKeys_split ks :
  Permutation
    (map snd (indexKeys ks) ++ filter (fun k => negb (isArrayIndex k)) ks) ks.
Proof.
  induction ks as [|k r IH]; simpl; [reflexivity|].
  unfold isArrayIndex at 1. destruct (arrayIndex k); simpl.
  - now constructor.
  - rewrite <- Permutation_middle. now constructor.
Qed.

Lemma enumerate_perm ks : Permutation (enumerate ks) ks.
Proof.
  unfold enumerate. rewrite (sortIndex_perm (indexKeys ks)).
  apply indexKeys_split.
Qed.

Lemma enumerate_In ks k : In k (enumerate ks) <-> In k ks.
Proof.
  split; apply Permutation_in;
    [apply enumerate_perm | symmetry; apply enumerate_perm].
Qed.

Lemma enumerate_NoDup ks : NoDup ks -> NoDup (enumerate ks).
Proof.
  apply Permutation_NoDup. symmetry. apply enumerate_perm.
Qed.

(** A selection of an enumeration is enumerated as it stands. *)
Lemma enumerate_filter_enumerate (p : string -> bool) ks :
  enumerate (filter p (enumerate ks)) = filter p (enumerate ks).
Proof.
  unfold enumerate at 2 3.
  set (s := sortIndex (indexKeys ks)).
  set (rest := filter (fun k => negb (isArrayIndex k)) ks).
  rewrite filter_app. unfold enumerate.
  rewrite indexKeys_app, filter_app.
  rewrite (indexKeys_none (filter p rest))
    by (apply Forall_filter, rest_part_not_index).
  rewrite app_nil_r.
  rewrite (filter_comm _ p (map snd s)), (filter_comm _ p rest).
  rewrite (filter_none (fun k => negb (isArrayIndex k)) (map snd s)).
  2:{ eapply Forall_impl; [|apply sorted_part_index].
      intros k Hk. cbv beta in *. now rewrite Hk. }
  rewrite (filter_all (fun k => negb (isArrayIndex k)) rest).
  2:{ eapply Forall_impl; [|apply rest_part_not_index].
      intros k Hk. cbv beta in *. now rewrite Hk. }
  simpl. f_equal.
  rewrite map_snd_filter. f_equal.
  rewrite indexKeys_map_snd by (apply Forall_filter, sorted_indexed).
  apply sortIndex_of_sorted, filter_sorted, sortIndex_sorted.
Qed.

(** Keys that are no array indices are enumerated in creation order. *)
Lemma enumerate_names ks :
  Forall (fun k => isArrayIndex k = false) ks -> enumerate ks = ks.
Proof.
  intros H. unfold enumerate. rewrite (indexKeys_none ks H). simpl.
  apply filter_all. eapply Forall_impl; [|exact H].
  intros k Hk. cbv beta in *. now rewrite Hk.
Qed.

End JSFacts.

(* ================================================================== *)
(** ** Facts about objects and about [clearTypes] *)

Section ObjectFacts.
Context {V : Type}.
Implicit Types (o : JS.object V) (k : string) (v : V).

Lemma get_Some_In o k v : JS.get o k = Some v -> In k (JS.ownNames o).
Proof.
  induction o as [|[k' v'] r IH]; simpl; [discriminate|].
  destruct (String.eqb_spec k k'); [left; congruence | right; auto].
Qed.

Lemma In_get_Some o k : In k (JS.ownNames o) -> exists v, JS.get o k = Some v.
Proof.
  induction o as [|[k' v'] r IH]; simpl; [tauto|].
  destruct (String.eqb_spec k k'); [eauto|].
  intros [H|H]; [congruence | auto].
Qed.

Lemma get_None_notin o k : JS.get o k = None <-> ~ In k (JS.ownNames o).
Proof.
  split.
  - intros H Hin. apply In_get_Some in Hin. destruct Hin. congruence.
  - intros H. destruct (JS.get o k) eqn:E; [|reflexivity].
    apply get_Some_In in E. contradiction.
Qed.

Lemma get_define o k v k' :
  JS.get (JS.define o k v) k' =
  if String.eqb k' k then Some v else JS.get o k'.
Proof.
  induction o as [|[k0 v0] r IH]; simpl.
  - reflexivity.
  - destruct (String.eqb_spec k k0) as [->|Hk]; simpl.
    + destruct (String.eqb_spec k' k0); reflexivity.
    + rewrite IH. destruct (String.eqb_spec k' k0) as [->|Hk'].
      * destruct (String.eqb_spec k0 k); [congruence|reflexivity].
      * reflexivity.
Qed.

Lemma ownNames_define_in o k v :
  In k (JS.ownNames o) -> JS.ownNames (JS.define o k v) = JS.ownNames o.
Proof.
  induction o as [|[k0 v0] r IH]; simpl; [tauto|].
  destruct (String.eqb_spec k k0); simpl; [reflexivity|].
  intros [H|H]; [congruence | now rewrite IH].
Qed.

Lemma ownNames_define_notin o k v :
  ~ In k (JS.ownNames o) ->
  JS.ownNames (JS.define o k v) = JS.ownNames o ++ [k].
Proof.
  induction o as [|[k0 v0] r IH]; simpl; [reflexivity|].
  intros H. destruct (String.eqb_spec k k0); simpl.
  - exfalso. apply H. left. congruence.
  - rewrite IH; tauto.
Qed.

Lemma get_key_In o k v : JS.get o k = Some v -> In k (JS.keys o).
Proof. intros H. apply JSFacts.enumerate_In. eapply get_Some_In, H. Qed.

Lemma key_In_get o k : In k (JS.keys o) -> exists v, JS.get o k = Some v.
Proof. intros H. apply In_get_Some. now apply JSFacts.enumerate_In. Qed.

Lemma keys_NoDup o : JS.wf o -> NoDup (JS.keys o).
Proof. apply JSFacts.enumerate_NoDup. Qed.

End ObjectFacts.

Section ClearTypesFacts.
Variable typesMap : GraphQLTypesMap.

Lemma get_copyKey obj key k :
  JS.get (copyKey typesMap obj key) k =
  if String.eqb k key && notProto key
  then match JS.get typesMap key with
       | Some v => Some v
       | None => JS.get obj k
       end
  else JS.get obj k.
Proof.
  unfold copyKey, JS.assign, notProto.
  destruct (JS.get typesMap key) as [v|];
    [|destruct (String.eqb k key && _); reflexivity].
  destruct (String.eqb key "__proto__"); simpl.
  - now rewrite andb_false_r.
  - rewrite get_define, andb_true_r. reflexivity.
Qed.

(** The map the [reduce] builds, read at a key. *)
Lemma get_reduce ks : forall obj k,
  JS.get (fold_left (copyKey typesMap) ks obj) k =
  if JS.includes ks k && notProto k
  then match JS.get typesMap k with
       | Some v => Some v
       | None => JS.get obj k
       end
  else JS.get obj k.
Proof.
  induction ks as [|key r IH]; intros obj k; simpl; [reflexivity|].
  rewrite IH, get_copyKey.
  destruct (String.eqb_spec k key) as [->|Hk]; simpl.
  - destruct (notProto key); simpl.
    + rewrite andb_true_r.
      destruct (JS.get typesMap key); [|destruct (JS.includes r key)];
        destruct (JS.includes r key); reflexivity.
    + rewrite !andb_false_r. reflexivity.
  - reflexivity.
Qed.

(** The properties the [reduce] creates, in the order it creates them. *)
Lemma ownNames_reduce ks : forall obj,
  NoDup ks ->
  (forall k, In k ks -> ~ In k (JS.ownNames obj)) ->
  (forall k, In k ks -> JS.get typesMap k <> None) ->
  JS.ownNames (fold_left (copyKey typesMap) ks obj) =
  JS.ownNames obj ++ filter notProto ks.
Proof.
  induction ks as [|key r IH]; intros obj Hnd Hfresh Hdef; simpl.
  - now rewrite app_nil_r.
  - inversion Hnd as [|? ? Hkey Hr]; subst.
    assert (Hstep : JS.ownNames (copyKey typesMap obj key) =
                    JS.ownNames obj ++ (if notProto key then [key] else [])).
    { unfold copyKey, JS.assign, notProto.
      destruct (JS.get typesMap key) eqn:E;
        [|exfalso; eapply Hdef; [left; reflexivity | exact E]].
      destruct (String.eqb key "__proto__"); simpl.
      - now rewrite app_nil_r.
      - apply ownNames_define_notin. apply Hfresh. now left. }
    rewrite IH; [| assumption | | intros; apply Hdef; now right].
    + rewrite Hstep. rewrite <- app_assoc. f_equal.
      destruct (notProto key); reflexivity.
    + intros k Hk. rewrite Hstep. intros Hin. apply in_app_or in Hin.
      destruct Hin as [Hin|Hin].
      * apply (Hfresh k); [now right | assumption].
      * destruct (notProto key); simpl in Hin; [|tauto].
        destruct Hin as [<-|[]]. contradiction.
Qed.

Lemma wf_reduce ks : forall obj,
  JS.wf obj -> JS.wf (fold_left (copyKey typesMap) ks obj).
Proof.
  induction ks as [|key r IH]; intros obj Hwf; simpl; [assumption|].
  apply IH. unfold copyKey, JS.assign.
  destruct (JS.get typesMap key); [|assumption].
  destruct (String.eqb key "__proto__"); [assumption|].
  unfold JS.wf in *.
  destruct (in_dec string_dec key (JS.ownNames obj)) as [Hin|Hin].
  - now rewrite ownNames_define_in.
  - rewrite ownNames_define_notin by assumption.
    apply NoDup_app; [assumption | repeat constructor; simpl; tauto |].
    intros x Hx [<-|[]]. contradiction.
Qed.

Variable forcedTypes : list string.

Lemma filtered_key_defined k :
  In k (filter (keeps forcedTypes) (JS.keys typesMap)) ->
  JS.get typesMap k <> None.
Proof.
  intros H. apply filter_In in H. destruct H as [H _].
  apply key_In_get in H. destruct H as [v Hv]. congruence.
Qed.

(** What [clearTypes] binds a key to. *)
Lemma get_clearTypes k :
  JS.get (clearTypes typesMap forcedTypes) k =
  if survives forcedTypes k then JS.get typesMap k else None.
Proof.
  unfold clearTypes. rewrite get_reduce. simpl. unfold survives.
  fold (notProto k).
  destruct (JS.includes _ k) eqn:E; simpl.
  - apply JSFacts.includes_In, filter_In in E. destruct E as [Hk ->]. simpl.
    destruct (notProto k); [|reflexivity].
    now destruct (JS.get typesMap k).
  - apply JSFacts.includes_false in E.
    destruct (keeps forcedTypes k) eqn:Ek; simpl; [|reflexivity].
    destruct (notProto k); [|reflexivity].
    destruct (JS.get typesMap k) eqn:Eg; [|reflexivity].
    exfalso. apply E, filter_In. split; [|assumption].
    eapply get_key_In, Eg.
Qed.

Lemma wf_clearTypes : JS.wf (clearTypes typesMap forcedTypes).
Proof. apply wf_reduce. constructor. Qed.

Lemma In_keys_clearTypes k :
  In k (JS.keys (clearTypes typesMap forcedTypes)) <->
  In k (JS.keys typesMap) /\ survives forcedTypes k = true.
Proof.
  split.
  - intros H. apply key_In_get in H. destruct H as [v Hv].
    rewrite get_clearTypes in Hv.
    destruct (survives forcedTypes k); [|discriminate].
    split; [eapply get_key_In, Hv | reflexivity].
  - intros [H Hs]. apply key_In_get in H. destruct H as [v Hv].
    apply (get_key_In _ _ v). now rewrite get_clearTypes, Hs.
Qed.

(** The keys of the filtered map, in its iteration order. *)
Lemma keys_clearTypes :
  JS.wf typesMap ->
  JS.keys (clearTypes typesMap forcedTypes) =
  filter (survives forcedTypes) (JS.keys typesMap).
Proof.
  intros Hwf. unfold JS.keys at 1, clearTypes.
  rewrite ownNames_reduce.
  - simpl. rewrite JSFacts.filter_comm.
    assert (E : forall l,
      filter (keeps forcedTypes) (filter notProto l) =
      filter (survives forcedTypes) l).
    { induction l as [|x r IH]; simpl; [reflexivity|].
      assert (Hs : survives forcedTypes x = keeps forcedTypes x && notProto x)
        by reflexivity.
      rewrite Hs. destruct (notProto x); simpl.
      - rewrite andb_true_r.
        destruct (keeps forcedTypes x); simpl; now rewrite IH.
      - rewrite andb_false_r. exact IH. }
    rewrite E. apply JSFacts.enumerate_filter_enumerate.
  - apply NoDup_filter, keys_NoDup, Hwf.
  - simpl. tauto.
  - apply filtered_key_defined.
Qed.

End ClearTypesFacts.

(* ================================================================== *)
(** ** Facts about the loop of [schemaToTemplateContext] *)

Section LoopFacts.
Context {traversal : Traversal} {transformers : Transformers}.
Variable schema : GraphQLSchema.

Lemma afterLoop_nil r : afterLoop schema r [] = r.
Proof.
  destruct r. unfold afterLoop. simpl. now rewrite !app_nil_r.
Qed.

Lemma afterLoop_cons r e arr r1 :
  dispatch schema r e = Return r1 ->
  afterLoop schema r1 arr = afterLoop schema r (e :: arr).
Proof.
  unfold dispatch, afterLoop, routed, goesTo. simpl.
  destruct (class (value e)); simpl; intros H; inversion H; subst; simpl;
    rewrite <- ?app_assoc; reflexivity.
Qed.

Lemma dispatch_throws r e :
  unclassifiable e = true ->
  dispatch schema r e =
  Throw (UnexpectedGraphQLTypeDefinition (key e) (value e)).
Proof.
  unfold unclassifiable, dispatch.
  destruct (class (value e)); simpl; congruence.
Qed.

Lemma dispatch_returns r e :
  unclassifiable e = false -> exists r1, dispatch schema r e = Return r1.
Proof.
  unfold unclassifiable, dispatch.
  destruct (class (value e)); simpl; intros H; try discriminate; eauto.
Qed.

(** The loop throws at the first entry no [instanceof] test accepts, and
    otherwise pushes one record per entry. *)
Lemma loop_spec arr : forall r,
  forEachM (dispatch schema) arr r =
  match find unclassifiable arr with
  | Some e => Throw (UnexpectedGraphQLTypeDefinition (key e) (value e))
  | None => Return (afterLoop schema r arr)
  end.
Proof.
  induction arr as [|e arr IH]; intros r; simpl.
  - now rewrite afterLoop_nil.
  - destruct (unclassifiable e) eqn:E.
    + now rewrite dispatch_throws.
    + destruct (dispatch_returns r e E) as [r1 H1]. rewrite H1. simpl.
      rewrite IH. destruct (find unclassifiable arr); [reflexivity|].
      f_equal. eapply afterLoop_cons, H1.
Qed.

Lemma schemaToTemplateContext_spec documents :
  schemaToTemplateContext schema documents =
  match find unclassifiable (typesArrayOf schema documents) with
  | Some e => Throw (UnexpectedGraphQLTypeDefinition (key e) (value e))
  | None =>
      Return
        (setIndicators
           (setDefinedDirectives
              (afterLoop schema
                 (initialResult schema
                    (Toolkit.getDirectives schema (Toolkit.OfSchema schema)))
                 (typesArrayOf schema documents))
              (transformDirectives schema (GraphQL.getDirectives schema))))
  end.
Proof.
  unfold schemaToTemplateContext. rewrite loop_spec.
  destruct (find unclassifiable _); reflexivity.
Qed.

Lemma returned_builtFrom documents ctx :
  schemaToTemplateContext schema documents = Return ctx ->
  builtFrom schema ctx (typesArrayOf schema documents).
Proof.
  rewrite schemaToTemplateContext_spec.
  destruct (find unclassifiable _); [discriminate|].
  intros H. inversion H; subst. intros l. destruct l; reflexivity.
Qed.

(** An entry goes to one list at most, and to one unless it is
    unclassifiable. *)
Lemma goesTo_unique l1 l2 e : goesTo l1 e = true -> goesTo l2 e = true -> l1 = l2.
Proof.
  unfold goesTo. destruct (route (class (value e))); [|discriminate].
  destruct (OutputList_eq_dec o l1), (OutputList_eq_dec o l2); congruence.
Qed.

Lemma goesTo_total e :
  unclassifiable e = false -> exists l, goesTo l e = true.
Proof.
  unfold unclassifiable, goesTo.
  destruct (route (class (value e))) as [l|]; [|discriminate].
  intros _. exists l. now destruct (OutputList_eq_dec l l).
Qed.

Lemma goesTo_classifiable l e : goesTo l e = true -> unclassifiable e = false.
Proof.
  unfold unclassifiable, goesTo.
  now destruct (route (class (value e))).
Qed.

Lemma find_unclassifiable_None arr :
  find unclassifiable arr = None <->
  forall e, In e arr -> class (value e) <> ForeignClass.
Proof.
  split.
  - intros H e He Hc. eapply find_none in H; [|exact He].
    unfold unclassifiable in H. rewrite Hc in H. discriminate.
  - intros H. destruct (find unclassifiable arr) as [e|] eqn:E; [|reflexivity].
    apply find_some in E. destruct E as [He Hu]. exfalso. apply (H e He).
    unfold unclassifiable in Hu. now destruct (class (value e)).
Qed.

End LoopFacts.

(* ================================================================== *)
(** ** Facts about [includeIntrospectionTypes] *)

Section CollectorFacts.
Context {traversal : Traversal}.

Lemma sameObject_true a b : sameObject a b = true <-> a = b.
Proof.
  unfold sameObject. destruct (GraphQLNamedType_eq_dec a b); split;
    congruence.
Qed.

Lemma seen_In t acc : existsb (sameObject t) acc = true <-> In t acc.
Proof.
  rewrite existsb_exists. split.
  - intros [x [Hx He]]. apply sameObject_true in He. now subst.
  - intros H. exists t. split; [assumption | now apply sameObject_true].
Qed.

Lemma Field_qualifies acc ty :
  Field acc ty =
  match qualifies ty with
  | Some t => if existsb (sameObject t) acc then acc else acc ++ [t]
  | None => acc
  end.
Proof.
  unfold Field, qualifies. destruct (getNamedType ty) as [t|]; [|reflexivity].
  destruct (isIntrospectionType (Some t) && isEnumType (Some t)); simpl;
    [|reflexivity].
  now destruct (existsb (sameObject t) acc).
Qed.

Lemma collect_visited schema docs : forall acc,
  fold_left
    (fun typesToInclude doc =>
       fold_left Field (visitedFieldTypes schema (content doc))
         typesToInclude)
    docs acc
  = fold_left Field (visitedTypes schema docs) acc.
Proof.
  induction docs as [|d r IH]; intros acc; simpl; [reflexivity|].
  now rewrite IH, fold_left_app.
Qed.

Lemma includeIntrospectionTypes_visited schema docs :
  includeIntrospectionTypes schema (Some docs) =
  fold_left Field (visitedTypes schema docs) [].
Proof. apply collect_visited. Qed.

Lemma qualifying_app l1 l2 : qualifying (l1 ++ l2) = qualifying l1 ++ qualifying l2.
Proof. unfold qualifying. apply flat_map_app. Qed.

Lemma firstIndex_lt t l : In t l -> firstIndex t l < List.length l.
Proof.
  induction l as [|x r IH]; simpl; [tauto|].
  destruct (sameObject t x) eqn:E; [lia|].
  intros [H|H].
  - subst. assert (sameObject t t = true) by now apply sameObject_true.
    congruence.
  - specialize (IH H). lia.
Qed.

Lemma firstIndex_app_in t l l' :
  In t l -> firstIndex t (l ++ l') = firstIndex t l.
Proof.
  induction l as [|x r IH]; simpl; [tauto|].
  destruct (sameObject t x) eqn:E; [reflexivity|].
  intros [H|H]; [|now rewrite IH].
  subst. assert (sameObject t t = true) by now apply sameObject_true.
  congruence.
Qed.

Lemma firstIndex_app_new t l :
  ~ In t l -> firstIndex t (l ++ [t]) = List.length l.
Proof.
  induction l as [|x r IH]; simpl; intros H.
  - assert (E : sameObject t t = true) by now apply sameObject_true.
    now rewrite E.
  - destruct (sameObject t x) eqn:E.
    + apply sameObject_true in E. subst. tauto.
    + rewrite IH; tauto.
Qed.

Lemma collected_fields l : collected l (fold_left Field l []).
Proof.
  unfold collected. induction l as [|ty l IH] using rev_ind.
  - simpl. repeat split; try constructor; try tauto.
    intros i j t u H. destruct i; discriminate.
  - rewrite fold_left_app. simpl. rewrite Field_qualifies, qualifying_app.
    set (res := fold_left Field l []) in *.
    destruct IH as [Hnd [Hin Hord]].
    unfold qualifying at 1 3 5. simpl.
    destruct (qualifies ty) as [t0|]; simpl.
    2:{ rewrite app_nil_r. repeat split; auto; apply Hin. }
    destruct (existsb (sameObject t0) res) eqn:E.
    + apply seen_In in E. repeat split.
      * exact Hnd.
      * intros H. apply in_or_app. left. now apply Hin.
      * intros H. apply in_app_or in H. destruct H as [H|[<-|[]]];
          [now apply Hin | exact E].
      * intros i j t u Hi Hj Hlt.
        rewrite !firstIndex_app_in.
        -- eauto.
        -- apply Hin. eapply nth_error_In, Hj.
        -- apply Hin. eapply nth_error_In, Hi.
    + assert (Hnew : ~ In t0 res).
      { intros H. apply seen_In in H. congruence. }
      assert (Hnewq : ~ In t0 (qualifying l)) by (now rewrite <- Hin).
      repeat split.
      * apply NoDup_app; [assumption | repeat constructor; simpl; tauto |].
        intros x Hx [<-|[]]. contradiction.
      * intros H. apply in_app_or in H. apply in_or_app.
        destruct H as [H|H]; [left; now apply Hin | now right].
      * intros H. apply in_app_or in H. apply in_or_app.
        destruct H as [H|H]; [left; now apply Hin | now right].
      * intros i j t u Hi Hj Hlt.
        assert (Hilt : i < List.length res).
        { assert (j < List.length (res ++ [t0]))
            by (apply nth_error_Some; congruence).
          rewrite length_app in H. simpl in H. lia. }
        rewrite nth_error_app1 in Hi by assumption.
        assert (Hti : In t (qualifying l))
          by (apply Hin; eapply nth_error_In, Hi).
        rewrite (firstIndex_app_in t) by assumption.
        destruct (Nat.lt_ge_cases j (List.length res)) as [Hj'|Hj'].
        -- rewrite nth_error_app1 in Hj by assumption.
           rewrite firstIndex_app_in
             by (apply Hin; eapply nth_error_In, Hj).
           eauto.
        -- rewrite nth_error_app2 in Hj by assumption.
           destruct (j - List.length res) as [|n] eqn:En; simpl in Hj;
             [|destruct n; discriminate].
           inversion Hj; subst u.
           rewrite firstIndex_app_new by assumption.
           now apply firstIndex_lt.
Qed.

Lemma In_qualifying l t :
  In t (qualifying l) <-> exists ty, In ty l /\ qualifies ty = Some t.
Proof.
  unfold qualifying. rewrite in_flat_map. split.
  - intros [ty [Hty H]]. exists ty. split; [assumption|].
    destruct (qualifies ty); simpl in H; [|tauto].
    destruct H as [->|[]]. reflexivity.
  - intros [ty [Hty H]]. exists ty. split; [assumption|].
    rewrite H. now left.
Qed.

Lemma qualifies_Some ty t :
  qualifies ty = Some t <->
  getNamedType ty = Some t
  /\ isIntrospectionType (Some t) = true /\ isEnumType (Some t) = true.
Proof.
  unfold qualifies. destruct (getNamedType ty) as [t'|].
  - split.
    + destruct (isIntrospectionType (Some t')) eqn:E1;
        destruct (isEnumType (Some t')) eqn:E2; cbn [andb];
        intros H; inversion H; subst; auto.
    + intros [H [H1 H2]]. inversion H; subst. now rewrite H1, H2.
  - split; [discriminate | intros [H _]; discriminate].
Qed.

(** The names in the allow-list are names of introspection types. *)
Lemma allowed_names schema documents n :
  In n (map name (includeIntrospectionTypes schema documents)) ->
  In n introspectionTypes.
Proof.
  destruct documents as [docs|]; [|simpl; tauto].
  rewrite includeIntrospectionTypes_visited. intros H.
  apply in_map_iff in H. destruct H as [t [<- Ht]].
  apply (proj1 (proj2 (collected_fields _))) in Ht.
  apply In_qualifying in Ht. destruct Ht as [ty [_ Hq]].
  apply qualifies_Some in Hq. destruct Hq as [_ [Hi _]].
  apply andb_true_iff in Hi. now apply JSFacts.includes_In.
Qed.

End CollectorFacts.

(* ================================================================== *)
(** ** Facts about the array of filtered types *)

Section ArrayFacts.
Context {V : Type}.
Implicit Types (o : JS.object V) (e : Entry V).

Lemma objectMapToArray_flat o ks :
  (forall k, In k ks -> exists v, JS.get o k = Some v) ->
  map key
    (flat_map
       (fun k =>
          match JS.get o k with
          | Some v => [{| key := k; value := v |}]
          | None => []
          end) ks) = ks.
Proof.
  induction ks as [|k r IH]; intros H; simpl; [reflexivity|].
  destruct (H k (or_introl eq_refl)) as [v Hv]. rewrite Hv. simpl.
  f_equal. apply IH. intros k' Hk'. apply H. now right.
Qed.

(** The keys of the array are the keys of the map, in its order. *)
Lemma keys_objectMapToArray o : map key (objectMapToArray o) = JS.keys o.
Proof.
  unfold objectMapToArray.
  apply objectMapToArray_flat. apply key_In_get.
Qed.

Lemma In_objectMapToArray o e :
  In e (objectMapToArray o) <->
  In (key e) (JS.keys o) /\ JS.get o (key e) = Some (value e).
Proof.
  unfold objectMapToArray. rewrite in_flat_map. split.
  - intros [k [Hk He]]. destruct (JS.get o k) eqn:E; simpl in He; [|tauto].
    destruct He as [<-|[]]. simpl. auto.
  - intros [Hk Hg]. exists (key e). split; [assumption|].
    rewrite Hg. left. now destruct e.
Qed.

Lemma same_key_same_entry (l : list (Entry V)) e1 e2 :
  NoDup (map key l) -> In e1 l -> In e2 l -> key e1 = key e2 -> e1 = e2.
Proof.
  induction l as [|x r IH]; simpl; [tauto|].
  intros Hnd H1 H2 Hk. inversion Hnd as [|? ? Hx Hr]; subst.
  destruct H1 as [<-|H1], H2 as [<-|H2]; auto.
  - exfalso. apply Hx. rewrite Hk. now apply in_map.
  - exfalso. apply Hx. rewrite <- Hk. now apply in_map.
Qed.

End ArrayFacts.

Section FilteredArrayFacts.
Variable typesMap : GraphQLTypesMap.
Variable forcedTypes : list string.

(** The array of the filtered map is the array of the map without the
    entries that do not survive. *)
Lemma objectMapToArray_clearTypes :
  JS.wf typesMap ->
  objectMapToArray (clearTypes typesMap forcedTypes) =
  filter (fun e => survives forcedTypes (key e)) (objectMapToArray typesMap).
Proof.
  intros Hwf. unfold objectMapToArray.
  rewrite keys_clearTypes by assumption.
  induction (JS.keys typesMap) as [|k r IH]; simpl; [reflexivity|].
  destruct (survives forcedTypes k) eqn:E; simpl.
  - rewrite get_clearTypes, E, IH.
    destruct (JS.get typesMap k); simpl; [now rewrite E | reflexivity].
  - rewrite IH. destruct (JS.get typesMap k); simpl; [now rewrite E|].
    reflexivity.
Qed.

Lemma NoDup_keys_filtered :
  NoDup (map key (objectMapToArray (clearTypes typesMap forcedTypes))).
Proof.
  rewrite keys_objectMapToArray. apply keys_NoDup, wf_clearTypes.
Qed.

(** The filter, in the words of its source. *)
Lemma keeps_iff k :
  keeps forcedTypes k = true <->
  In k forcedTypes
  \/ (~ In k GRAPHQL_PRIMITIVES /\ JS.startsWith k "__" = false).
Proof.
  unfold keeps.
  rewrite orb_true_iff, andb_true_iff, !negb_true_iff,
    JSFacts.includes_In, JSFacts.includes_false.
  reflexivity.
Qed.

Lemma survives_iff k :
  survives forcedTypes k = true <->
  k <> "__proto__"
  /\ (In k forcedTypes
      \/ (~ In k GRAPHQL_PRIMITIVES /\ JS.startsWith k "__" = false)).
Proof.
  unfold survives, notProto.
  rewrite andb_true_iff, keeps_iff, negb_true_iff.
  destruct (String.eqb_spec k "__proto__"); split; intros [H1 H2];
    try discriminate; try tauto.
Qed.

End FilteredArrayFacts.

(** With an allow-list of introspection names the assignment to
    [__proto__] never happens, and no primitive is forced. *)
Lemma survives_introspection (forcedTypes : list string) (k : string) :
  (forall n, In n forcedTypes -> In n introspectionTypes) ->
  survives forcedTypes k = keeps forcedTypes k.
Proof.
  intros H. unfold survives, notProto.
  destruct (String.eqb_spec k "__proto__") as [->|]; simpl;
    [|apply andb_true_r].
  rewrite andb_false_r. symmetry. apply not_true_is_false.
  intros Hk. apply keeps_iff in Hk. destruct Hk as [Hk|[_ Hk]].
  - apply H in Hk. simpl in Hk.
    repeat (destruct Hk as [Hk|Hk]; [discriminate|]). exact Hk.
  - discriminate.
Qed.

Lemma forced_not_primitive (forcedTypes : list string) (k : string) :
  (forall n, In n forcedTypes -> In n introspectionTypes) ->
  In k forcedTypes -> ~ In k GRAPHQL_PRIMITIVES /\ JS.startsWith k "__" = true.
Proof.
  intros H Hk. apply H in Hk. simpl in Hk.
  repeat (destruct Hk as [<-|Hk];
          [split; [simpl; intuition discriminate | reflexivity]|]).
  destruct Hk.
Qed.

(* ================================================================== *)
(** ** Names and output lists *)

Section NamesFacts.
Variable arr : list (Entry GraphQLNamedType).

Lemma In_namesIn l T :
  In T (namesIn l arr) <->
  exists e, In e arr /\ key e = T /\ goesTo l e = true.
Proof.
  unfold namesIn, routed. rewrite in_map_iff. split.
  - intros [e [He Hin]]. apply filter_In in Hin. exists e. tauto.
  - intros [e [Hin [He Hg]]]. exists e. split; [assumption|].
    apply filter_In. tauto.
Qed.

Hypothesis distinct : NoDup (map key arr).
Hypothesis classified : find unclassifiable arr = None.

(** The names of the array are shared out among the output lists. *)
Lemma one_list_per_name T :
  (exists! l, In T (namesIn l arr)) <-> In T (map key arr).
Proof.
  split.
  - intros [l [Hl _]]. apply In_namesIn in Hl.
    destruct Hl as [e [He [<- _]]]. now apply in_map.
  - intros H. apply in_map_iff in H. destruct H as [e [<- He]].
    assert (Hc : unclassifiable e = false).
    { apply (find_none _ _ classified) in He. exact He. }
    destruct (goesTo_total e Hc) as [l Hl].
    exists l. split.
    + apply In_namesIn. exists e. auto.
    + intros l' Hl'. apply In_namesIn in Hl'.
      destruct Hl' as [e' [He' [Hk Hg]]].
      assert (e' = e) by (eapply same_key_same_entry; eauto).
      subst e'. eapply goesTo_unique; eauto.
Qed.

Lemma no_list_for_name T :
  (forall l, ~ In T (namesIn l arr)) <-> ~ In T (map key arr).
Proof.
  split.
  - intros H Hin. apply one_list_per_name in Hin.
    destruct Hin as [l [Hl _]]. exact (H l Hl).
  - intros H l Hl. apply H. apply In_namesIn in Hl.
    destruct Hl as [e [He [<- _]]]. now apply in_map.
Qed.

End NamesFacts.

Section ContextNames.
Context {traversal : Traversal} {transformers : Transformers}.
Variable schema : GraphQLSchema.
Variable documents : option (list DocumentFile).

Lemma returned_classified ctx :
  schemaToTemplateContext schema documents = Return ctx ->
  find unclassifiable (typesArrayOf schema documents) = None.
Proof.
  rewrite schemaToTemplateContext_spec.
  now destruct (find unclassifiable _).
Qed.

(** The names of the array of filtered types. *)
Lemma In_typesArray_keys T :
  In T (map key (typesArrayOf schema documents)) <->
  In T (JS.keys (getTypeMap schema))
  /\ keeps (map name (includeIntrospectionTypes schema documents)) T = true.
Proof.
  unfold typesArrayOf. rewrite keys_objectMapToArray, In_keys_clearTypes.
  rewrite survives_introspection; [reflexivity|].
  apply allowed_names.
Qed.

End ContextNames.

(* ================================================================== *)
(** ** The type filter *)

(** The filter, in the words of C1, for an allow-list of introspection
    names. *)
Lemma keeps_introspection (forcedTypes : list string) (T : string) :
  (forall n, In n forcedTypes -> In n introspectionTypes) ->
  (keeps forcedTypes T = true <->
   ~ In T GRAPHQL_PRIMITIVES
   /\ (JS.startsWith T "__" = false \/ In T forcedTypes)).
Proof.
  intros H. rewrite keeps_iff.
  pose proof (forced_not_primitive forcedTypes T H) as Hf.
  destruct (JS.startsWith T "__"); split; intros Hk;
    try (intuition congruence).
Qed.

(** C1.  For every type map and every allow-list the collector can
    produce, that is, every list of names of introspection types, a name
    of the map survives filtering if and only if it is none of the five
    primitive scalar names and either does not start with [__] or is in
    the allow-list; so it is for the allow-list of every call.
    Consequently, in a context that [schemaToTemplateContext] returns,
    every output list is made of the records of the entries routed to it,
    every name of the raw map appears in exactly one output list iff it
    survives, and it is absent from all lists iff it is a primitive scalar
    name or starts with [__], and is not in the allow-list. *)
Theorem name_survives_filtering :
  (forall (typesMap : GraphQLTypesMap) (forcedTypes : list string)
          (T : string),
      (forall n, In n forcedTypes -> In n introspectionTypes) ->
      In T (JS.keys typesMap) ->
      (In T (JS.keys (clearTypes typesMap forcedTypes)) <->
       ~ In T GRAPHQL_PRIMITIVES
       /\ (JS.startsWith T "__" = false \/ In T forcedTypes)))
  /\ (forall (traversal : Traversal) (transformers : Transformers)
             (schema : GraphQLSchema)
             (documents : option (list DocumentFile)),
        let forcedTypes :=
          map name (includeIntrospectionTypes schema documents) in
        let typesArray := typesArrayOf schema documents in
        (forall T, In T (JS.keys (getTypeMap schema)) ->
           (In T (JS.keys (clearTypes (getTypeMap schema) forcedTypes)) <->
            ~ In T GRAPHQL_PRIMITIVES
            /\ (JS.startsWith T "__" = false \/ In T forcedTypes)))
        /\ forall ctx : SchemaTemplateContext,
             schemaToTemplateContext schema documents = Return ctx ->
             builtFrom schema ctx typesArray
             /\ forall T, In T (JS.keys (getTypeMap schema)) ->
                  ((exists! l, In T (namesIn l typesArray)) <->
                   ~ In T GRAPHQL_PRIMITIVES
                   /\ (JS.startsWith T "__" = false \/ In T forcedTypes))
                  /\ ((forall l, ~ In T (namesIn l typesArray)) <->
                      In T GRAPHQL_PRIMITIVES
                      \/ (JS.startsWith T "__" = true
                          /\ ~ In T forcedTypes))
                  /\ ((forall l, ~ In T (namesIn l typesArray)) <->
                      (In T GRAPHQL_PRIMITIVES
                       \/ JS.startsWith T "__" = true)
                      /\ ~ In T forcedTypes)).
Proof.
  assert (Hfilter : forall typesMap forcedTypes T,
    (forall n, In n forcedTypes -> In n introspectionTypes) ->
    In T (JS.keys typesMap) ->
    (In T (JS.keys (clearTypes typesMap forcedTypes)) <->
     ~ In T GRAPHQL_PRIMITIVES
     /\ (JS.startsWith T "__" = false \/ In T forcedTypes))).
  { intros typesMap forcedTypes T Hi HT.
    rewrite In_keys_clearTypes, (survives_introspection _ _ Hi),
      (keeps_introspection _ _ Hi). tauto. }
  split; [exact Hfilter|].
  intros traversal transformers schema documents. cbv zeta.
  pose proof (allowed_names schema documents) as Hallow.
  split; [intros T HT; now apply Hfilter|].
  intros ctx Hret. split; [now apply returned_builtFrom|].
  intros T HT.
  pose proof (returned_classified schema documents ctx Hret) as Hc.
  pose proof (NoDup_keys_filtered (getTypeMap schema)
                (map name (includeIntrospectionTypes schema documents)))
    as Hnd.
  fold (typesArrayOf schema documents) in Hnd.
  rewrite (one_list_per_name _ Hnd Hc), (no_list_for_name _ Hnd Hc).
  rewrite In_typesArray_keys, (keeps_introspection _ _ Hallow).
  pose proof (forced_not_primitive _ T Hallow) as Hf.
  pose proof (JSFacts.includes_In GRAPHQL_PRIMITIVES T) as Hprim.
  pose proof (JSFacts.includes_In
                (map name (includeIntrospectionTypes schema documents)) T)
    as Hforced.
  destruct (JS.includes GRAPHQL_PRIMITIVES T);
    destruct (JS.includes
                (map name (includeIntrospectionTypes schema documents)) T);
    destruct (JS.startsWith T "__");
    repeat split; intros; try (intuition congruence).
Qed.

(** C1 at the schema [Sample.schema] and the document [Sample.kindQuery]:
    [String] and [__Type] are absent from all lists, [Zulu] and
    [__TypeKind] are each in one. *)
Lemma name_survives_filtering_witness :
  (In "__TypeKind"
      (JS.keys (clearTypes (getTypeMap Sample.schema) ["__TypeKind"])) <->
   ~ In "__TypeKind" GRAPHQL_PRIMITIVES
   /\ (JS.startsWith "__TypeKind" "__" = false
       \/ In "__TypeKind" ["__TypeKind"]))
  /\ (exists! l,
        In "Zulu"
           (namesIn l (@typesArrayOf Sample.traversal Sample.schema
                         (Some [Sample.kindQuery]))))
  /\ (exists! l,
        In "__TypeKind"
           (namesIn l (@typesArrayOf Sample.traversal Sample.schema
                         (Some [Sample.kindQuery]))))
  /\ (forall l,
        ~ In "String"
             (namesIn l (@typesArrayOf Sample.traversal Sample.schema
                           (Some [Sample.kindQuery]))))
  /\ (forall l,
        ~ In "__Type"
             (namesIn l (@typesArrayOf Sample.traversal Sample.schema
                           (Some [Sample.kindQuery])))).
Proof.
  destruct name_survives_filtering as [H1 H2].
  split.
  { apply H1; [|simpl; tauto].
    intros n [<-|[]]. simpl. tauto. }
  destruct (H2 Sample.traversal Sample.transformers Sample.schema
               (Some [Sample.kindQuery])) as [_ H].
  destruct (H _ eq_refl) as [_ Hn].
  destruct (Hn "Zulu") as [Hzulu _]; [simpl; tauto|].
  destruct (Hn "__TypeKind") as [Hkind _]; [simpl; tauto|].
  destruct (Hn "String") as [_ [Hstring _]]; [simpl; tauto|].
  destruct (Hn "__Type") as [_ [Htype _]]; [simpl; tauto|].
  split; [|split; [|split]].
  - apply Hzulu. split; [|left; reflexivity].
    simpl. intuition discriminate.
  - apply Hkind. split; [|right; simpl; tauto].
    simpl. intuition discriminate.
  - apply Hstring. left. simpl. tauto.
  - apply Htype. right. split; [reflexivity|].
    simpl. intuition discriminate.
Defined.



(** C9.  Filtering only removes entries: every key of the filtered map is a
    key of the original map, what the filtered map binds a key to is the
    object the original map binds it to, and a surviving key is bound in
    the filtered map to the object it is bound to in the original map. *)
Theorem clearTypes_only_removes
  (typesMap : GraphQLTypesMap) (forcedTypes : list string) :
  (forall k, In k (JS.keys (clearTypes typesMap forcedTypes)) ->
             In k (JS.keys typesMap))
  /\ (forall k t, JS.get (clearTypes typesMap forcedTypes) k = Some t ->
                  JS.get typesMap k = Some t)
  /\ (forall k, In k (JS.keys (clearTypes typesMap forcedTypes)) ->
                JS.get (clearTypes typesMap forcedTypes) k
                = JS.get typesMap k)
  /\ List.length (JS.keys (clearTypes typesMap forcedTypes))
     <= List.length (JS.keys typesMap).
Proof.
  repeat split.
  - intros k H. now apply In_keys_clearTypes in H.
  - intros k t H. rewrite get_clearTypes in H.
    now destruct (survives forcedTypes k).
  - intros k H. apply In_keys_clearTypes in H.
    rewrite get_clearTypes. now rewrite (proj2 H).
  - apply NoDup_incl_length.
    + apply keys_NoDup, wf_clearTypes.
    + intros k H. now apply In_keys_clearTypes in H.
Qed.

(* ================================================================== *)
(** ** Order *)

Section CountFacts.
Context {traversal : Traversal} {transformers : Transformers}.

Lemma routed_lengths (arr : list (Entry GraphQLNamedType)) :
  find unclassifiable arr = None ->
  List.length (routed Types arr) + List.length (routed InputTypes arr)
  + List.length (routed Enums arr) + List.length (routed Unions arr)
  + List.length (routed Interfaces arr) + List.length (routed Scalars arr)
  = List.length arr.
Proof.
  induction arr as [|e arr IH]; simpl; [reflexivity|].
  destruct (unclassifiable e) eqn:E; [discriminate|].
  intros H. specialize (IH H). revert E.
  unfold unclassifiable, goesTo.
  destruct (route (class (value e))) as [l|]; [|discriminate].
  intros _. destruct l; simpl; lia.
Qed.

Lemma builtFrom_count schema ctx arr :
  builtFrom schema ctx arr ->
  find unclassifiable arr = None ->
  recordCount ctx = List.length arr.
Proof.
  intros H Hc. unfold recordCount.
  rewrite (H Types), (H InputTypes), (H Enums), (H Unions),
    (H Interfaces), (H Scalars).
  rewrite !length_map. now apply routed_lengths.
Qed.

End CountFacts.

(** C7.  The iteration order of the filtered map is that of the original
    map restricted to the surviving names, and each output list is made of
    the records of the surviving entries of its kind, in the order of the
    original map: when these entries are [a], [b], [c] in that order, the
    list is made of the records of [a], [b], [c], in that order. *)
Theorem order_is_preserved :
  (forall (typesMap : GraphQLTypesMap) (forcedTypes : list string),
      JS.wf typesMap ->
      JS.keys (clearTypes typesMap forcedTypes)
      = filter (survives forcedTypes) (JS.keys typesMap)
      /\ forall k, In k (JS.keys typesMap) ->
           (survives forcedTypes k = true <->
            In k (JS.keys (clearTypes typesMap forcedTypes))))
  /\ (forall (traversal : Traversal) (transformers : Transformers)
             (schema : GraphQLSchema)
             (documents : option (list DocumentFile))
             (ctx : SchemaTemplateContext),
        JS.wf (getTypeMap schema) ->
        schemaToTemplateContext schema documents = Return ctx ->
        let forcedTypes :=
          map name (includeIntrospectionTypes schema documents) in
        let surviving :=
          filter (fun e => survives forcedTypes (key e))
                 (objectMapToArray (getTypeMap schema)) in
        map key surviving
        = filter (survives forcedTypes) (JS.keys (getTypeMap schema))
        /\ (forall l, madeOf schema ctx l (filter (goesTo l) surviving))
        /\ (forall l a b c,
              filter (goesTo l) surviving = [a; b; c] ->
              madeOf schema ctx l [a; b; c])).
Proof.
  split.
  - intros typesMap forcedTypes Hwf. split.
    + now apply keys_clearTypes.
    + intros k Hk. rewrite In_keys_clearTypes. tauto.
  - intros traversal transformers schema documents ctx Hwf Hret. cbv zeta.
    pose proof (returned_builtFrom schema documents ctx Hret) as Hb.
    unfold typesArrayOf in Hb.
    rewrite objectMapToArray_clearTypes in Hb by assumption.
    repeat split.
    + rewrite <- objectMapToArray_clearTypes by assumption.
      rewrite keys_objectMapToArray. now apply keys_clearTypes.
    + exact Hb.
    + intros l a b c H. rewrite <- H. apply Hb.
Qed.

(** C7 at the schema [Sample.schema], whose enums are declared in the
    order [Zulu], [Alpha], [Mike]. *)
Lemma order_is_preserved_witness :
  JS.keys (clearTypes (getTypeMap Sample.schema) [])
  = ["Query"; "Zulu"; "Alpha"; "Mike"]
  /\ exists ctx,
       @schemaToTemplateContext Sample.traversal Sample.transformers
         Sample.schema None = Return ctx
       /\ @enums Sample.transformers ctx = ["Zulu"; "Alpha"; "Mike"].
Proof.
  destruct order_is_preserved as [H1 H2].
  assert (Hwf : JS.wf (getTypeMap Sample.schema)).
  { unfold JS.wf. simpl.
    repeat (constructor; [simpl; intuition discriminate|]). constructor. }
  split.
  - rewrite (proj1 (H1 (getTypeMap Sample.schema) [] Hwf)). reflexivity.
  - eexists. split; [reflexivity|].
    destruct (H2 Sample.traversal Sample.transformers Sample.schema None _
                 Hwf eq_refl) as [_ [_ H]].
    exact (H Enums
             {| key := "Zulu"; value := Sample.Zulu |}
             {| key := "Alpha"; value := Sample.Alpha |}
             {| key := "Mike"; value := Sample.Mike |} eq_refl).
Defined.

(* ================================================================== *)
(** ** Classification *)

Section ClassificationFacts.

Lemma In_routed l (arr : list (Entry GraphQLNamedType)) e :
  In e (routed l arr) <-> In e arr /\ goesTo l e = true.
Proof. apply filter_In. Qed.

Lemma one_list_per_entry (arr : list (Entry GraphQLNamedType)) e :
  In e arr -> class (value e) <> ForeignClass ->
  exists! l, In e (routed l arr).
Proof.
  intros He Hc.
  assert (Hu : unclassifiable e = false).
  { unfold unclassifiable. now destruct (class (value e)). }
  destruct (goesTo_total e Hu) as [l Hl]. exists l. split.
  - apply In_routed. auto.
  - intros l' Hl'. apply In_routed in Hl'.
    eapply goesTo_unique; [exact Hl | tauto].
Qed.

Lemma foreign_found (arr : list (Entry GraphQLNamedType)) e :
  In e arr -> class (value e) = ForeignClass ->
  exists e', find unclassifiable arr = Some e'
             /\ In e' arr /\ class (value e') = ForeignClass.
Proof.
  intros He Hc. destruct (find unclassifiable arr) as [e'|] eqn:E.
  - exists e'. apply find_some in E. destruct E as [Hin Hu].
    repeat split; auto. unfold unclassifiable in Hu.
    now destruct (class (value e')).
  - exfalso. apply (find_none _ _ E) in He.
    unfold unclassifiable in He. rewrite Hc in He. discriminate.
Qed.

End ClassificationFacts.

(** C4.  Classification is total and exclusive over the six classes.  When
    every surviving type is an instance of one of them, the call returns a
    context in which each surviving entry has its record in exactly one
    output list and the lists hold as many records as there are surviving
    entries.  When a surviving type is an instance of none of them, the
    call throws and returns no context, whatever else the map holds. *)
Theorem classification_is_total_and_exclusive
  (traversal : Traversal) (transformers : Transformers)
  (schema : GraphQLSchema) (documents : option (list DocumentFile)) :
  let typesArray := typesArrayOf schema documents in
  ((forall e, In e typesArray -> class (value e) <> ForeignClass) ->
   exists ctx,
     schemaToTemplateContext schema documents = Return ctx
     /\ builtFrom schema ctx typesArray
     /\ (forall e, In e typesArray -> exists! l, In e (routed l typesArray))
     /\ recordCount ctx = List.length typesArray)
  /\ (forall e, In e typesArray -> class (value e) = ForeignClass ->
      exists e',
        In e' typesArray /\ class (value e') = ForeignClass
        /\ schemaToTemplateContext schema documents
           = Throw (UnexpectedGraphQLTypeDefinition (key e') (value e'))
        /\ forall ctx, schemaToTemplateContext schema documents <> Return ctx).
Proof.
  cbv zeta. split.
  - intros H. pose proof (proj2 (find_unclassifiable_None _) H) as Hc.
    pose proof (schemaToTemplateContext_spec schema documents) as Hs.
    rewrite Hc in Hs. eexists. split; [exact Hs|].
    pose proof (returned_builtFrom schema documents _ Hs) as Hb.
    repeat split.
    + exact Hb.
    + intros e He. apply one_list_per_entry; auto.
    + now apply (builtFrom_count schema).
  - intros e He Hc.
    destruct (foreign_found _ e He Hc) as [e' [Hf [Hin Hc']]].
    exists e'. rewrite schemaToTemplateContext_spec, Hf.
    repeat split; auto. discriminate.
Qed.

(** C4 at two schemas: [Sample.schema], all of whose surviving types are
    classified, and [Sample.mixed], whose type [Stranger] is not. *)
Lemma classification_is_total_and_exclusive_witness :
  (exists ctx,
     @schemaToTemplateContext Sample.traversal Sample.transformers
       Sample.schema None = Return ctx
     /\ recordCount ctx = 4)
  /\ (exists e',
        @schemaToTemplateContext Sample.traversal Sample.transformers
          Sample.mixed None
        = Throw (UnexpectedGraphQLTypeDefinition (key e') (value e'))).
Proof.
  split.
  - destruct (classification_is_total_and_exclusive
                Sample.traversal Sample.transformers Sample.schema None)
      as [H _].
    destruct H as [ctx [Hret [_ [_ Hn]]]].
    + simpl. intros e He.
      repeat (destruct He as [<-|He]; [discriminate|]). destruct He.
    + exists ctx. split; [exact Hret | exact Hn].
  - destruct (classification_is_total_and_exclusive
                Sample.traversal Sample.transformers Sample.mixed None)
      as [_ H].
    destruct (H {| key := "Stranger"; value := Sample.Stranger |})
      as [e' [_ [_ [Hthrow _]]]].
    + simpl. tauto.
    + reflexivity.
    + exists e'. exact Hthrow.
Defined.

(* ================================================================== *)
(** ** Presence flags *)

(** C8.  In every context [schemaToTemplateContext] returns, each presence
    flag is [list.length > 0] of its list, hence true if and only if the
    list is not empty; with no surviving enum the context has [enums = []]
    and [hasEnums = false], and with one or more it has
    [hasEnums = true]. *)
Theorem flags_follow_lists
  (traversal : Traversal) (transformers : Transformers)
  (schema : GraphQLSchema) (documents : option (list DocumentFile))
  (ctx : SchemaTemplateContext) :
  schemaToTemplateContext schema documents = Return ctx ->
  (hasTypes ctx = nonEmpty (types ctx)
   /\ hasInputTypes ctx = nonEmpty (inputTypes ctx)
   /\ hasEnums ctx = nonEmpty (enums ctx)
   /\ hasUnions ctx = nonEmpty (unions ctx)
   /\ hasScalars ctx = nonEmpty (scalars ctx)
   /\ hasInterfaces ctx = nonEmpty (interfaces ctx)
   /\ hasDefinedDirectives ctx = nonEmpty (definedDirectives ctx))
  /\ ((hasTypes ctx = true <-> types ctx <> [])
      /\ (hasInputTypes ctx = true <-> inputTypes ctx <> [])
      /\ (hasEnums ctx = true <-> enums ctx <> [])
      /\ (hasUnions ctx = true <-> unions ctx <> [])
      /\ (hasScalars ctx = true <-> scalars ctx <> [])
      /\ (hasInterfaces ctx = true <-> interfaces ctx <> [])
      /\ (hasDefinedDirectives ctx = true <-> definedDirectives ctx <> []))
  /\ (routed Enums (typesArrayOf schema documents) = [] ->
      enums ctx = [] /\ hasEnums ctx = false)
  /\ (routed Enums (typesArrayOf schema documents) <> [] ->
      enums ctx <> [] /\ hasEnums ctx = true).
Proof.
  intros Hret.
  assert (Hne : forall A (xs : list A), nonEmpty xs = true <-> xs <> []).
  { intros A xs. unfold nonEmpty. rewrite Nat.ltb_lt.
    destruct xs; simpl; split; intros H; try lia; congruence. }
  assert (Hflags :
    hasTypes ctx = nonEmpty (types ctx)
    /\ hasInputTypes ctx = nonEmpty (inputTypes ctx)
    /\ hasEnums ctx = nonEmpty (enums ctx)
    /\ hasUnions ctx = nonEmpty (unions ctx)
    /\ hasScalars ctx = nonEmpty (scalars ctx)
    /\ hasInterfaces ctx = nonEmpty (interfaces ctx)
    /\ hasDefinedDirectives ctx = nonEmpty (definedDirectives ctx)).
  { pose proof Hret as H. rewrite schemaToTemplateContext_spec in H.
    destruct (find unclassifiable _); [discriminate|].
    inversion H; subst. repeat split. }
  pose proof (returned_builtFrom schema documents ctx Hret Enums) as He.
  simpl in He.
  destruct Hflags as [H1 [H2 [H3 [H4 [H5 [H6 H7]]]]]].
  split; [tauto|]. split.
  - rewrite H1, H2, H3, H4, H5, H6, H7. repeat split; apply Hne.
  - split.
    + intros E. rewrite E in He. simpl in He. rewrite H3, He. auto.
    + intros E. assert (Hn : enums ctx <> []).
      { rewrite He. destruct (routed Enums _); [congruence|discriminate]. }
      split; [exact Hn|]. rewrite H3. now apply Hne.
Qed.

(** C8 at a schema without enum and at the same schema with enums. *)
Lemma flags_follow_lists_witness :
  (exists ctx,
     @schemaToTemplateContext Sample.traversal Sample.transformers
       Sample.noEnums None = Return ctx
     /\ enums ctx = [] /\ hasEnums ctx = false)
  /\ (exists ctx,
        @schemaToTemplateContext Sample.traversal Sample.transformers
          Sample.schema None = Return ctx
        /\ enums ctx <> [] /\ hasEnums ctx = true).
Proof.
  split; eexists; (split; [reflexivity|]).
  - apply (flags_follow_lists Sample.traversal Sample.transformers
             Sample.noEnums None _ eq_refl). reflexivity.
  - apply (flags_follow_lists Sample.traversal Sample.transformers
             Sample.schema None _ eq_refl). discriminate.
Defined.

(* ================================================================== *)
(** ** Documents *)

(** C10.  An empty list of documents gives the empty allow-list and the
    context, or the error, that omitted documents give. *)
Theorem empty_documents_as_omitted
  (traversal : Traversal) (transformers : Transformers)
  (schema : GraphQLSchema) :
  includeIntrospectionTypes schema (Some []) = []
  /\ includeIntrospectionTypes schema (Some [])
     = includeIntrospectionTypes schema None
  /\ schemaToTemplateContext schema (Some [])
     = schemaToTemplateContext schema None.
Proof. repeat split. Qed.

(* ================================================================== *)
(** ** The introspection collector *)

Section CollectorClaims.
Context {traversal : Traversal} {transformers : Transformers}.
Variable schema : GraphQLSchema.

Lemma In_visitedTypes docs ty :
  In ty (visitedTypes schema docs) <->
  exists doc, In doc docs /\ In ty (visitedFieldTypes schema (content doc)).
Proof. unfold visitedTypes. apply in_flat_map. Qed.

(** The types the collector returns. *)
Lemma In_includeIntrospectionTypes docs t :
  In t (includeIntrospectionTypes schema (Some docs)) <->
  exists doc ty,
    In doc docs /\ In ty (visitedFieldTypes schema (content doc))
    /\ getNamedType ty = Some t
    /\ isIntrospectionType (Some t) = true /\ isEnumType (Some t) = true.
Proof.
  rewrite includeIntrospectionTypes_visited.
  rewrite (proj1 (proj2 (collected_fields _)) t), In_qualifying.
  split.
  - intros [ty [Hty Hq]]. apply In_visitedTypes in Hty.
    destruct Hty as [doc [Hdoc Hty]]. apply qualifies_Some in Hq.
    exists doc, ty. tauto.
  - intros [doc [ty [Hdoc [Hty Hq]]]]. exists ty. split.
    + apply In_visitedTypes. eauto.
    + now apply qualifies_Some.
Qed.

Lemma no_enum_no_include docs :
  (forall doc ty t,
      In doc docs -> In ty (visitedFieldTypes schema (content doc)) ->
      getNamedType ty = Some t -> isEnumType (Some t) = false) ->
  includeIntrospectionTypes schema (Some docs) = [].
Proof.
  intros H.
  destruct (includeIntrospectionTypes schema (Some docs)) as [|t r] eqn:E;
    [reflexivity|].
  assert (Ht : In t (includeIntrospectionTypes schema (Some docs)))
    by (rewrite E; now left).
  apply In_includeIntrospectionTypes in Ht.
  destruct Ht as [doc [ty [Hdoc [Hty [Hn [_ He]]]]]].
  rewrite (H doc ty t Hdoc Hty Hn) in He. discriminate.
Qed.

Lemma same_allow_list_same_context documents documents' :
  includeIntrospectionTypes schema documents
  = includeIntrospectionTypes schema documents' ->
  schemaToTemplateContext schema documents
  = schemaToTemplateContext schema documents'.
Proof.
  intros H. unfold schemaToTemplateContext, typesArrayOf. now rewrite H.
Qed.

(** An enum of the allow-list that the type map binds under its name has
    its record in [enums]. *)
Lemma included_enum_listed documents E ctx :
  In E (includeIntrospectionTypes schema documents) ->
  JS.get (getTypeMap schema) (name E) = Some E ->
  schemaToTemplateContext schema documents = Return ctx ->
  In (transformGraphQLEnum schema E) (enums ctx).
Proof.
  intros Hin Hget Hret.
  pose proof (returned_builtFrom schema documents ctx Hret Enums) as Hb.
  simpl in Hb. rewrite Hb.
  apply (in_map (fun e => transformGraphQLEnum schema (value e)) _
                {| key := name E; value := E |}).
  assert (Hq : isEnumType (Some E) = true).
  { destruct documents as [docs|]; [|destruct Hin].
    apply In_includeIntrospectionTypes in Hin.
    destruct Hin as [doc [ty H]]. tauto. }
  apply In_routed. split.
  - unfold typesArrayOf. apply In_objectMapToArray. simpl.
    assert (Hs : survives
                   (map name (includeIntrospectionTypes schema documents))
                   (name E) = true).
    { rewrite survives_introspection by apply allowed_names.
      apply keeps_iff. left. now apply in_map. }
    split.
    + apply In_keys_clearTypes. split; [eapply get_key_In, Hget | exact Hs].
    + now rewrite get_clearTypes, Hs.
  - unfold goesTo. simpl. unfold isEnumType in Hq.
    destruct (TypeClass_eq_dec (class E) GraphQLEnumType) as [->|];
      [reflexivity | discriminate].
Qed.

End CollectorClaims.

(** C5.  A type is in the introspection allow-list if and only if some
    field of some document has it as its named type, it is an
    introspection type and it is an enum.  Without documents the
    allow-list is empty.  An introspection enum a document refers to has
    its record in the list [enums] of the context, although its name starts
    with [__]; documents whose fields have no enum type add nothing: the
    context is the one obtained without documents. *)
Theorem introspection_allow_list
  (traversal : Traversal) (transformers : Transformers)
  (schema : GraphQLSchema) :
  (forall docs t,
      In t (includeIntrospectionTypes schema (Some docs)) <->
      exists doc ty,
        In doc docs /\ In ty (visitedFieldTypes schema (content doc))
        /\ getNamedType ty = Some t
        /\ isIntrospectionType (Some t) = true
        /\ isEnumType (Some t) = true)
  /\ includeIntrospectionTypes schema None = []
  /\ (forall docs doc ty E ctx,
        In doc docs -> In ty (visitedFieldTypes schema (content doc)) ->
        getNamedType ty = Some E ->
        isIntrospectionType (Some E) = true -> isEnumType (Some E) = true ->
        JS.get (getTypeMap schema) (name E) = Some E ->
        schemaToTemplateContext schema (Some docs) = Return ctx ->
        JS.startsWith (name E) "__" = true
        /\ In (transformGraphQLEnum schema E) (enums ctx))
  /\ (forall docs,
        (forall doc ty t,
            In doc docs -> In ty (visitedFieldTypes schema (content doc)) ->
            getNamedType ty = Some t -> isEnumType (Some t) = false) ->
        includeIntrospectionTypes schema (Some docs) = []
        /\ schemaToTemplateContext schema (Some docs)
           = schemaToTemplateContext schema None).
Proof.
  split; [apply In_includeIntrospectionTypes|].
  split; [reflexivity|]. split.
  - intros docs doc ty E ctx Hdoc Hty Hn Hi He Hget Hret. split.
    + apply andb_true_iff in Hi. destruct Hi as [_ Hi].
      apply JSFacts.includes_In in Hi. simpl in Hi.
      repeat (destruct Hi as [<-|Hi]; [reflexivity|]). destruct Hi.
    + apply (included_enum_listed schema (Some docs)); auto.
      apply In_includeIntrospectionTypes. exists doc, ty. tauto.
  - intros docs H.
    pose proof (no_enum_no_include schema docs H) as Hnone.
    split; [exact Hnone|].
    apply same_allow_list_same_context. now rewrite Hnone.
Qed.

(** C5 at two documents over [Sample.schema]: [Sample.kindQuery] puts the
    enum [__TypeKind] in [enums]; [Sample.nameQuery], which reaches the
    object [__Type] and the scalar [String] only, changes nothing. *)
Lemma introspection_allow_list_witness :
  (exists ctx,
     @schemaToTemplateContext Sample.traversal Sample.transformers
       Sample.schema (Some [Sample.kindQuery]) = Return ctx
     /\ In "__TypeKind" (@enums Sample.transformers ctx))
  /\ @schemaToTemplateContext Sample.traversal Sample.transformers
       Sample.schema (Some [Sample.nameQuery])
     = @schemaToTemplateContext Sample.traversal Sample.transformers
         Sample.schema None.
Proof.
  destruct (introspection_allow_list Sample.traversal Sample.transformers
              Sample.schema) as [_ [_ [H3 H4]]].
  split.
  - eexists. split; [reflexivity|].
    apply (H3 [Sample.kindQuery] Sample.kindQuery
              (Some (GraphQLNonNull (Named Sample.TypeKind)))
              Sample.TypeKind _); try reflexivity; simpl; tauto.
  - apply (H4 [Sample.nameQuery]).
    intros doc ty t [<-|[]] Hty Hn. simpl in Hty.
    destruct Hty as [<-|[<-|[]]]; inversion Hn; reflexivity.
Defined.

(** C6.  The result of the collector has no duplicate: each qualifying
    type is in it once, as one object.  Its order is that of first
    discovery: of two types of the result, the one listed first is the
    one whose first qualifying field comes first in the traversal of the
    documents in order. *)
Theorem collector_deduplicates_in_discovery_order
  (traversal : Traversal) (schema : GraphQLSchema)
  (docs : list DocumentFile) :
  let result := includeIntrospectionTypes schema (Some docs) in
  let discovered := qualifying (visitedTypes schema docs) in
  NoDup result
  /\ (forall t, In t discovered ->
                count_occ GraphQLNamedType_eq_dec result t = 1)
  /\ (forall t, In t result -> In t discovered)
  /\ (forall i j t u,
        nth_error result i = Some t -> nth_error result j = Some u ->
        (i < j <->
         firstIndex t discovered < firstIndex u discovered)).
Proof.
  cbv zeta. rewrite includeIntrospectionTypes_visited.
  destruct (collected_fields (visitedTypes schema docs))
    as [Hnd [Hin Hord]].
  repeat split.
  - exact Hnd.
  - intros t Ht. apply Hin in Ht.
    apply NoDup_count_occ'; assumption.
  - intros t Ht. now apply Hin.
  - now apply Hord.
  - intros Hlt. destruct (Nat.lt_trichotomy i j) as [Hij|[Hij|Hij]].
    + exact Hij.
    + subst j. rewrite H in H0. inversion H0; subst. lia.
    + specialize (Hord j i u t H0 H Hij). lia.
Qed.

(** C6 at the documents [Sample.kindQuery] and [Sample.locationsQuery],
    whose fields reach [__TypeKind] three times. *)
Lemma collector_deduplicates_in_discovery_order_witness :
  NoDup (@includeIntrospectionTypes Sample.traversal Sample.schema
           (Some [Sample.kindQuery; Sample.locationsQuery]))
  /\ @includeIntrospectionTypes Sample.traversal Sample.schema
       (Some [Sample.kindQuery; Sample.locationsQuery])
     = [Sample.TypeKind; Sample.DirectiveLocation].
Proof.
  split; [|reflexivity].
  apply (collector_deduplicates_in_discovery_order Sample.traversal
           Sample.schema [Sample.kindQuery; Sample.locationsQuery]).
Defined.

(* ================================================================== *)
(** ** Directives *)

Section DirectiveFacts.

Lemma In_ownNames_define {V : Type} (o : JS.object V) k v k' :
  In k' (JS.ownNames (JS.define o k v)) <-> k' = k \/ In k' (JS.ownNames o).
Proof.
  destruct (in_dec string_dec k (JS.ownNames o)) as [Hin|Hin].
  - rewrite ownNames_define_in by assumption. split; [auto|].
    intros [->|H]; assumption.
  - rewrite ownNames_define_notin by assumption.
    rewrite in_app_iff. simpl. intuition congruence.
Qed.

Lemma getDirectiveValues_Some d n :
  Toolkit.getDirectiveValues d n <> None <->
  exists a, In a (GraphQL.directives n) /\ directiveName a = declaredName d.
Proof.
  unfold Toolkit.getDirectiveValues.
  destruct (find _ (GraphQL.directives n)) as [a|] eqn:E; simpl; split.
  - intros _. apply find_some in E. destruct E as [Hin He].
    exists a. split; [assumption | now apply String.eqb_eq].
  - discriminate.
  - congruence.
  - intros [a [Hin He]]. apply (find_none _ _ E) in Hin.
    apply String.eqb_neq in Hin. contradiction.
Qed.

Lemma In_ownNames_assign {V : Type} (o : JS.object V) k v k' :
  In k' (JS.ownNames (JS.assign o k v)) <->
  (k' = k /\ k <> "__proto__") \/ In k' (JS.ownNames o).
Proof.
  unfold JS.assign. destruct (String.eqb_spec k "__proto__") as [->|Hk].
  - split; [auto | intros [[_ H]|H]; [congruence | exact H]].
  - rewrite In_ownNames_define. tauto.
Qed.

Lemma In_used_names n ds : forall (acc : Toolkit.DirectiveUseMap) k,
  In k (JS.ownNames
          (fold_left
             (fun result d =>
                match Toolkit.getDirectiveValues d n with
                | Some v => JS.assign result (declaredName d) v
                | None => result
                end) ds acc)) <->
  In k (JS.ownNames acc)
  \/ exists d, In d ds /\ declaredName d = k /\ k <> "__proto__"
               /\ Toolkit.getDirectiveValues d n <> None.
Proof.
  induction ds as [|d r IH]; intros acc k; simpl.
  - split; [auto | intros [H|[d [[] _]]]; assumption].
  - rewrite IH. destruct (Toolkit.getDirectiveValues d n) as [v|] eqn:E.
    + rewrite In_ownNames_assign. split.
      * intros [[[Hk Hp]|H]|[d' [Hd' H]]].
        -- subst k. right. exists d. repeat split; auto. congruence.
        -- now left.
        -- right. exists d'. tauto.
      * intros [H|[d' [[Hd|Hd'] [Hk [Hp Hv]]]]].
        -- left. now right.
        -- subst d'. left. left. split; congruence.
        -- right. exists d'. tauto.
    + split.
      * intros [H|[d' [Hd' H]]]; [now left|]. right. exists d'. tauto.
      * intros [H|[d' [[Hd|Hd'] [Hk [Hp Hv]]]]].
        -- now left.
        -- subst d'. congruence.
        -- right. exists d'. tauto.
Qed.

Lemma nonEmpty_keys {V : Type} (o : JS.object V) :
  nonEmpty (JS.keys o) = true <-> exists k, In k (JS.ownNames o).
Proof.
  unfold nonEmpty. rewrite Nat.ltb_lt. split.
  - intros H. destruct (JS.keys o) as [|k r] eqn:E; [simpl in H; lia|].
    exists k. apply JSFacts.enumerate_In. unfold JS.keys in E.
    rewrite E. now left.
  - intros [k Hk]. apply JSFacts.enumerate_In in Hk.
    fold (JS.keys o) in Hk. destruct (JS.keys o); [destruct Hk | simpl; lia].
Qed.

(** The map of the directives of the schema node has a key exactly when a
    declared directive with another name than [__proto__] is applied on
    that node. *)
Lemma schema_directives_used schema :
  nonEmpty (JS.keys (Toolkit.getDirectives schema (Toolkit.OfSchema schema)))
  = true <->
  exists d a,
    In d (GraphQL.getDirectives schema)
    /\ In a (applied (Toolkit.OfSchema schema))
    /\ directiveName a = declaredName d
    /\ declaredName d <> "__proto__".
Proof.
  rewrite nonEmpty_keys. unfold Toolkit.getDirectives, applied.
  destruct (Toolkit.astNodeOf (Toolkit.OfSchema schema)) as [n|].
  - split.
    + intros [k Hk]. apply In_used_names in Hk.
      destruct Hk as [[]|[d [Hd [Hn [Hp Hv]]]]].
      apply getDirectiveValues_Some in Hv. destruct Hv as [a [Ha He]].
      exists d, a. repeat split; auto. congruence.
    + intros [d [a [Hd [Ha [He Hp]]]]]. exists (declaredName d).
      apply In_used_names. right. exists d. repeat split; auto.
      apply getDirectiveValues_Some. eauto.
  - split; [intros [k []] | intros [d [a [_ [[] _]]]]].
Qed.

Lemma used_is_applied schema :
  (exists d a,
      In d (GraphQL.getDirectives schema)
      /\ In a (applied (Toolkit.OfSchema schema))
      /\ directiveName a = declaredName d
      /\ declaredName d <> "__proto__") ->
  appliedOnSchema schema.
Proof. intros [d [a [Hd [Ha [He _]]]]]. exists d, a. auto. Qed.

Lemma appliedOnSchema_somewhere schema :
  appliedOnSchema schema -> appliedSomewhere schema.
Proof. intros [d [a [_ [Ha _]]]]. left. eauto. Qed.

End DirectiveFacts.

(** C3, as stated, fails: in [Sample.appliedOnType] the directive [tag] is
    applied on the type [Query], and [usesDirectives] is false. *)
Lemma directive_on_type_is_not_counted :
  exists ctx,
    @schemaToTemplateContext Sample.traversal Sample.transformers
      Sample.appliedOnType None = Return ctx
    /\ appliedSomewhere Sample.appliedOnType
    /\ ~ (usesDirectives ctx = true <-> appliedSomewhere Sample.appliedOnType).
Proof.
  assert (H : appliedSomewhere Sample.appliedOnType).
  { right. exists "Query", Sample.TaggedQuery.
    eexists. split; [reflexivity | left; reflexivity]. }
  eexists. split; [reflexivity|]. split; [exact H|].
  intros [_ H']. specialize (H' H). discriminate.
Qed.

(** C3 (amended).  The field [directives] of the context is the map of the
    directives of the schema definition itself, and [usesDirectives] is
    true if and only if that map has a key.  It is true only if a
    directive the schema declares is applied on the schema definition,
    and it is true whenever such a directive, with another name than
    [__proto__], is applied there.  It is false when directives are
    declared and applied nowhere. *)
Theorem usesDirectives_reads_the_schema_definition
  (traversal : Traversal) (transformers : Transformers)
  (schema : GraphQLSchema) (documents : option (list DocumentFile))
  (ctx : SchemaTemplateContext) :
  schemaToTemplateContext schema documents = Return ctx ->
  directives ctx = Toolkit.getDirectives schema (Toolkit.OfSchema schema)
  /\ usesDirectives ctx = nonEmpty (JS.keys (directives ctx))
  /\ (usesDirectives ctx = true -> appliedOnSchema schema)
  /\ ((exists d a,
         In d (GraphQL.getDirectives schema)
         /\ In a (applied (Toolkit.OfSchema schema))
         /\ directiveName a = declaredName d
         /\ declaredName d <> "__proto__") ->
      usesDirectives ctx = true)
  /\ (~ appliedSomewhere schema -> usesDirectives ctx = false).
Proof.
  intros Hret. rewrite schemaToTemplateContext_spec in Hret.
  destruct (find unclassifiable _); [discriminate|].
  inversion Hret; subst; clear Hret. simpl.
  repeat split.
  - intros Hu. apply used_is_applied, schema_directives_used, Hu.
  - apply schema_directives_used.
  - intros H. apply not_true_is_false. intros Hu.
    apply H, appliedOnSchema_somewhere, used_is_applied,
      schema_directives_used, Hu.
Qed.

(** The amended C3 at three schemas that declare [tag]: applied nowhere,
    applied on a type, applied on the schema definition. *)
Lemma usesDirectives_reads_the_schema_definition_witness :
  (exists ctx,
     @schemaToTemplateContext Sample.traversal Sample.transformers
       Sample.declaredOnly None = Return ctx
     /\ usesDirectives ctx = false)
  /\ (exists ctx,
        @schemaToTemplateContext Sample.traversal Sample.transformers
          Sample.appliedOnDefinition None = Return ctx
        /\ usesDirectives ctx = true).
Proof.
  split; eexists; (split; [reflexivity|]).
  - destruct (usesDirectives_reads_the_schema_definition
                Sample.traversal Sample.transformers Sample.declaredOnly
                None _ eq_refl) as [_ [_ [_ [_ H]]]].
    apply H.
    intros [[a []]|[k [t [a [Hget Ha]]]]].
    simpl in Hget. destruct (String.eqb k "Query"); [|discriminate].
    inversion Hget; subst. destruct Ha.
  - destruct (usesDirectives_reads_the_schema_definition
                Sample.traversal Sample.transformers
                Sample.appliedOnDefinition None _ eq_refl)
      as [_ [_ [_ [H _]]]].
    apply H. exists Sample.tag. eexists.
    split; [left; reflexivity|]. split; [left; reflexivity|].
    split; [reflexivity | discriminate].
Defined.

(** The assignment [result["__proto__"] = ...] creates no key: with the
    only directive of the schema named [__proto__], the map of the schema
    definition is empty. *)
Lemma proto_directive_leaves_no_key :
  exists ctx,
    @schemaToTemplateContext Sample.traversal Sample.transformers
      Corner.protoDirective None = Return ctx
    /\ directives ctx = [] /\ usesDirectives ctx = false.
Proof. eexists. repeat split. Qed.

(* ================================================================== *)
(** * Further properties of the three functions *)

(** ** The filtered map as a list of properties *)

Section PropertyFacts.

Lemma define_fresh {V : Type} (o : JS.object V) k v :
  ~ In k (JS.ownNames o) -> JS.define o k v = o ++ [(k, v)].
Proof.
  induction o as [|[k0 v0] r IH]; simpl; [reflexivity|].
  intros H. destruct (String.eqb_spec k k0).
  - exfalso. apply H. left. congruence.
  - rewrite IH; tauto.
Qed.

Lemma filter_filter {A : Type} (p q : A -> bool) l :
  filter p (filter q l) = filter (fun x => q x && p x) l.
Proof.
  induction l as [|x r IH]; simpl; [reflexivity|].
  destruct (q x); simpl; [destruct (p x)|]; now rewrite IH.
Qed.

Lemma filter_implied {A : Type} (p q : A -> bool) l :
  (forall x, In x l -> p x = true -> q x = true) ->
  filter p (filter q l) = filter p l.
Proof.
  intros H. rewrite filter_filter. apply filter_ext_in.
  intros x Hx. specialize (H x Hx).
  destruct (p x), (q x); try reflexivity. now rewrite H.
Qed.

Variable typesMap : GraphQLTypesMap.

(** The properties the [reduce] creates, with their values. *)
Lemma reduce_properties ks : forall obj,
  NoDup ks ->
  (forall k, In k ks -> ~ In k (JS.ownNames obj)) ->
  fold_left (copyKey typesMap) ks obj =
  obj ++ flat_map
           (fun k =>
              match JS.get typesMap k with
              | Some v => if notProto k then [(k, v)] else []
              | None => []
              end) ks.
Proof.
  induction ks as [|key r IH]; intros obj Hnd Hfresh; simpl.
  - now rewrite app_nil_r.
  - inversion Hnd as [|? ? Hkey Hr]; subst.
    assert (Hstep : copyKey typesMap obj key =
                    obj ++ match JS.get typesMap key with
                           | Some v => if notProto key then [(key, v)] else []
                           | None => []
                           end).
    { unfold copyKey, JS.assign, notProto.
      destruct (JS.get typesMap key); [|now rewrite app_nil_r].
      destruct (String.eqb key "__proto__"); simpl.
      - now rewrite app_nil_r.
      - apply define_fresh, Hfresh. now left. }
    rewrite IH; [| assumption |].
    + rewrite Hstep. now rewrite <- app_assoc.
    + intros k Hk. rewrite Hstep. unfold JS.ownNames.
      rewrite map_app, in_app_iff. intros [Hin|Hin].
      * apply (Hfresh k); [now right | exact Hin].
      * destruct (JS.get typesMap key); [|destruct Hin].
        destruct (notProto key); simpl in Hin; [|destruct Hin].
        destruct Hin as [<-|[]]. contradiction.
Qed.

Variable forcedTypes : list string.

(** The filtered map is made of the surviving entries of the map, in the
    order of its array. *)
Lemma clearTypes_properties :
  JS.wf typesMap ->
  clearTypes typesMap forcedTypes =
  map (fun e => (key e, value e))
      (filter (fun e => survives forcedTypes (key e))
              (objectMapToArray typesMap)).
Proof.
  intros Hwf. unfold clearTypes.
  rewrite reduce_properties;
    [| apply NoDup_filter, keys_NoDup, Hwf | simpl; tauto].
  simpl. unfold objectMapToArray.
  induction (JS.keys typesMap) as [|k r IH]; simpl; [reflexivity|].
  rewrite filter_app, map_app, <- IH.
  assert (Hs : survives forcedTypes k = keeps forcedTypes k && notProto k)
    by reflexivity.
  destruct (keeps forcedTypes k) eqn:Ek; simpl.
  - f_equal. destruct (JS.get typesMap k); simpl; [|reflexivity].
    rewrite Hs. simpl. now destruct (notProto k).
  - destruct (JS.get typesMap k); simpl; [|reflexivity].
    now rewrite Hs.
Qed.

End PropertyFacts.

Lemma flat_map_agree {A B : Type} (f g : A -> list B) l :
  (forall x, In x l -> f x = g x) -> flat_map f l = flat_map g l.
Proof.
  induction l as [|x r IH]; intros H; simpl; [reflexivity|].
  rewrite (H x (or_introl eq_refl)), IH; [reflexivity|].
  intros y Hy. apply H. now right.
Qed.

(** The array of a well-formed map without array-index key is the list of
    its properties. *)
Lemma objectMapToArray_plain {V : Type} (o : JS.object V) :
  JS.wf o ->
  Forall (fun k => JS.isArrayIndex k = false) (JS.ownNames o) ->
  objectMapToArray o = map (fun p => {| key := fst p; value := snd p |}) o.
Proof.
  intros Hwf Hplain. unfold objectMapToArray, JS.keys.
  rewrite (JSFacts.enumerate_names _ Hplain). clear Hplain.
  unfold JS.wf in Hwf.
  induction o as [|[k v] r IH]; simpl; [reflexivity|].
  inversion Hwf as [|? ? Hk Hr]; subst.
  rewrite String.eqb_refl. simpl. f_equal.
  rewrite <- (IH Hr). apply flat_map_agree.
  intros k' Hk'. destruct (String.eqb_spec k' k); [|reflexivity].
  subst. contradiction.
Qed.

(** X1.  On a type map that is keyed by names none of which is an array
    index, as GraphQL names are, [clearTypes] returns the properties of
    the map that survive, unchanged and in their order. *)
Theorem clearTypes_filters_the_properties
  (typesMap : GraphQLTypesMap) (forcedTypes : list string) :
  JS.wf typesMap ->
  Forall (fun k => JS.isArrayIndex k = false) (JS.ownNames typesMap) ->
  clearTypes typesMap forcedTypes
  = filter (fun p => survives forcedTypes (fst p)) typesMap.
Proof.
  intros Hwf Hplain.
  rewrite clearTypes_properties by assumption.
  rewrite objectMapToArray_plain by assumption.
  clear. induction typesMap as [|[k v] r IH]; simpl; [reflexivity|].
  destruct (survives forcedTypes k); simpl; now rewrite IH.
Qed.

Lemma clearTypes_filters_the_properties_witness :
  clearTypes (getTypeMap Sample.schema) ["__TypeKind"]
  = [Sample.property Sample.Query; Sample.property Sample.TypeKind;
     Sample.property Sample.Zulu; Sample.property Sample.Alpha;
     Sample.property Sample.Mike].
Proof.
  rewrite (clearTypes_filters_the_properties (getTypeMap Sample.schema)
             ["__TypeKind"]).
  - reflexivity.
  - unfold JS.wf. simpl.
    repeat (constructor; [simpl; intuition discriminate|]). constructor.
  - simpl. repeat (constructor; [reflexivity|]). constructor.
Defined.

(** X2.  Filtering a filtered map with a second allow-list is filtering the
    map once, with the names that are in both allow-lists; in particular
    filtering twice with the same allow-list is filtering once. *)
Theorem clearTypes_composes
  (typesMap : GraphQLTypesMap) (forcedTypes forcedTypes' : list string) :
  JS.wf typesMap ->
  clearTypes (clearTypes typesMap forcedTypes) forcedTypes'
  = clearTypes typesMap (filter (JS.includes forcedTypes') forcedTypes)
  /\ clearTypes (clearTypes typesMap forcedTypes) forcedTypes
     = clearTypes typesMap forcedTypes.
Proof.
  intros Hwf.
  assert (Hcomp : forall a b,
    clearTypes (clearTypes typesMap a) b
    = map (fun e => (key e, value e))
          (filter (fun e => survives a (key e) && survives b (key e))
                  (objectMapToArray typesMap))).
  { intros a b.
    rewrite (clearTypes_properties (clearTypes typesMap a) b)
      by apply wf_clearTypes.
    rewrite objectMapToArray_clearTypes by assumption.
    now rewrite filter_filter. }
  split.
  - rewrite Hcomp, clearTypes_properties by assumption.
    f_equal. apply filter_ext. intros e.
    unfold survives, keeps.
    assert (Hi : JS.includes (filter (JS.includes forcedTypes') forcedTypes)
                   (key e)
                 = JS.includes forcedTypes (key e)
                   && JS.includes forcedTypes' (key e)).
    { apply eq_true_iff_eq.
      rewrite andb_true_iff, !JSFacts.includes_In, filter_In,
        JSFacts.includes_In. reflexivity. }
    rewrite Hi.
    destruct (JS.includes forcedTypes (key e)),
      (JS.includes forcedTypes' (key e)),
      (JS.includes GRAPHQL_PRIMITIVES (key e)),
      (JS.startsWith (key e) "__"), (notProto (key e)); reflexivity.
  - rewrite Hcomp, clearTypes_properties by assumption.
    f_equal. apply filter_ext. intros e.
    now destruct (survives forcedTypes (key e)).
Qed.

Lemma clearTypes_composes_witness :
  clearTypes (clearTypes (getTypeMap Sample.schema) ["__TypeKind"; "String"])
    ["__Type"; "String"]
  = [Sample.property Sample.Query; Sample.property Sample.StringType;
     Sample.property Sample.Zulu; Sample.property Sample.Alpha;
     Sample.property Sample.Mike].
Proof.
  rewrite (proj1 (clearTypes_composes (getTypeMap Sample.schema)
                    ["__TypeKind"; "String"] ["__Type"; "String"]
                    ltac:(unfold JS.wf; simpl;
                          repeat (constructor;
                                  [simpl; intuition discriminate|]);
                          constructor))).
  reflexivity.
Defined.

(** X3.  The filtered map depends on the allow-list only through the names
    of the map it holds: two allow-lists that hold the same names of the
    map, in any order, with any repetition and any other name, give the
    same filtered map. *)
Theorem clearTypes_reads_the_allow_list_as_a_set
  (typesMap : GraphQLTypesMap) (forcedTypes forcedTypes' : list string) :
  (forall k, In k (JS.keys typesMap) ->
             (In k forcedTypes <-> In k forcedTypes')) ->
  clearTypes typesMap forcedTypes = clearTypes typesMap forcedTypes'.
Proof.
  intros H. unfold clearTypes. f_equal. apply filter_ext_in.
  intros k Hk. unfold keeps. f_equal.
  apply eq_true_iff_eq. rewrite !JSFacts.includes_In. now apply H.
Qed.

Lemma clearTypes_reads_the_allow_list_as_a_set_witness :
  clearTypes (getTypeMap Sample.schema) ["__TypeKind"; "__Type"]
  = clearTypes (getTypeMap Sample.schema)
      ["__Type"; "__Missing"; "__TypeKind"; "__Type"].
Proof.
  apply clearTypes_reads_the_allow_list_as_a_set.
  intros k Hk. simpl in Hk.
  repeat (destruct Hk as [<-|Hk]; [simpl; intuition discriminate|]).
  destruct Hk.
Defined.

(** X4.  A larger allow-list keeps more: every entry of the map filtered
    with an allow-list is, with the same object, an entry of the map
    filtered with any allow-list that holds the same names and more. *)
Theorem clearTypes_is_monotone
  (typesMap : GraphQLTypesMap) (forcedTypes forcedTypes' : list string) :
  (forall k, In k forcedTypes -> In k forcedTypes') ->
  forall k t,
    JS.get (clearTypes typesMap forcedTypes) k = Some t ->
    JS.get (clearTypes typesMap forcedTypes') k = Some t.
Proof.
  intros H k t. rewrite !get_clearTypes.
  destruct (survives forcedTypes k) eqn:E; [|discriminate].
  apply survives_iff in E. destruct E as [Hp E].
  assert (E' : survives forcedTypes' k = true).
  { apply survives_iff. split; [assumption|].
    destruct E as [E|E]; [left; now apply H | now right]. }
  now rewrite E'.
Qed.

Lemma clearTypes_is_monotone_witness :
  JS.get (clearTypes (getTypeMap Sample.schema) ["__TypeKind"; "__Type"])
         "__TypeKind"
  = Some Sample.TypeKind.
Proof.
  apply (clearTypes_is_monotone (getTypeMap Sample.schema) ["__TypeKind"]).
  - intros k [<-|[]]. simpl. tauto.
  - reflexivity.
Defined.

(* ================================================================== *)
(** ** More on the collector and on documents *)

Section CollectorMore.
Context {traversal : Traversal}.
Variable schema : GraphQLSchema.

Lemma Field_extends l : forall acc,
  exists rest, fold_left Field l acc = acc ++ rest.
Proof.
  induction l as [|ty l IH]; intros acc; simpl.
  - exists []. now rewrite app_nil_r.
  - destruct (IH (Field acc ty)) as [rest Hrest]. rewrite Hrest.
    rewrite Field_qualifies. destruct (qualifies ty) as [t|]; [|eauto].
    destruct (existsb (sameObject t) acc); [eauto|].
    exists (t :: rest). now rewrite <- app_assoc.
Qed.

Lemma visitedTypes_app docs docs' :
  visitedTypes schema (docs ++ docs')
  = visitedTypes schema docs ++ visitedTypes schema docs'.
Proof. unfold visitedTypes. apply flat_map_app. Qed.

Lemma NoDup_includeIntrospectionTypes documents :
  NoDup (includeIntrospectionTypes schema documents).
Proof.
  destruct documents as [docs|]; [|constructor].
  rewrite includeIntrospectionTypes_visited.
  apply (collected_fields (visitedTypes schema docs)).
Qed.

Lemma same_members_same_array documents documents' :
  (forall t, In t (includeIntrospectionTypes schema documents) <->
             In t (includeIntrospectionTypes schema documents')) ->
  typesArrayOf schema documents = typesArrayOf schema documents'.
Proof.
  intros H. unfold typesArrayOf, clearTypes. do 2 f_equal.
  apply filter_ext. intros k. unfold keeps. f_equal.
  apply eq_true_iff_eq. rewrite !JSFacts.includes_In, !in_map_iff.
  split; intros [t [Hn Ht]]; exists t; (split; [assumption | now apply H]).
Qed.

Lemma NoDup_app_disjoint {A : Type} (l l' : list A) x :
  NoDup (l ++ l') -> In x l -> In x l' -> False.
Proof.
  induction l as [|y r IH]; simpl; intros Hnd Hl Hl'; [destruct Hl|].
  inversion Hnd as [|? ? Hy Hr]; subst. destruct Hl as [<-|Hl].
  - apply Hy. apply in_or_app. now right.
  - now apply IH.
Qed.

End CollectorMore.

(** X5.  Documents added after others extend the allow-list at its end:
    the types collected from the first documents keep their places, and
    what follows them are types they had not brought. *)
Theorem collector_extends_with_more_documents
  (traversal : Traversal) (schema : GraphQLSchema)
  (docs docs' : list DocumentFile) :
  exists rest,
    includeIntrospectionTypes schema (Some (docs ++ docs'))
    = includeIntrospectionTypes schema (Some docs) ++ rest
    /\ (forall t, In t rest ->
                  ~ In t (includeIntrospectionTypes schema (Some docs)))
    /\ (forall t, In t rest ->
                  In t (includeIntrospectionTypes schema (Some docs'))).
Proof.
  pose proof (NoDup_includeIntrospectionTypes schema (Some (docs ++ docs')))
    as Hnd.
  assert (Hin : forall t,
            In t (includeIntrospectionTypes schema (Some (docs ++ docs'))) ->
            In t (includeIntrospectionTypes schema (Some docs))
            \/ In t (includeIntrospectionTypes schema (Some docs'))).
  { intros t Ht. apply In_includeIntrospectionTypes in Ht.
    destruct Ht as [doc [ty [Hdoc H]]]. apply in_app_or in Hdoc.
    destruct Hdoc as [Hdoc|Hdoc]; [left|right];
      apply In_includeIntrospectionTypes; exists doc, ty; tauto. }
  revert Hnd Hin.
  rewrite !includeIntrospectionTypes_visited, visitedTypes_app, fold_left_app.
  destruct (Field_extends (visitedTypes schema docs')
              (fold_left Field (visitedTypes schema docs) []))
    as [rest Hrest].
  rewrite Hrest. intros Hnd Hin. exists rest. split; [reflexivity|].
  assert (Hfresh : forall t, In t rest ->
            ~ In t (fold_left Field (visitedTypes schema docs) [])).
  { intros t Ht Hin'. eapply NoDup_app_disjoint; eauto. }
  split; [exact Hfresh|].
  intros t Ht. destruct (Hin t (in_or_app _ _ _ (or_intror Ht))) as [H|H].
  - exfalso. exact (Hfresh t Ht H).
  - exact H.
Qed.

(** X6.  The context does not depend on the order of the documents, nor on
    a document being given more than once: two lists of the same documents
    give the same context, or the same error. *)
Theorem context_ignores_the_order_of_documents
  (traversal : Traversal) (transformers : Transformers)
  (schema : GraphQLSchema) (docs docs' : list DocumentFile) :
  (forall doc, In doc docs <-> In doc docs') ->
  schemaToTemplateContext schema (Some docs)
  = schemaToTemplateContext schema (Some docs').
Proof.
  intros Hsame.
  assert (Harr : typesArrayOf schema (Some docs)
                 = typesArrayOf schema (Some docs')).
  { apply same_members_same_array. intros t.
    rewrite !In_includeIntrospectionTypes.
    split; intros [doc [ty [Hdoc Hrest]]]; exists doc, ty;
      (split; [now apply Hsame | exact Hrest]). }
  unfold schemaToTemplateContext. now rewrite Harr.
Qed.

Lemma context_ignores_the_order_of_documents_witness :
  @schemaToTemplateContext Sample.traversal Sample.transformers
    Sample.schema (Some [Sample.kindQuery; Sample.locationsQuery])
  = @schemaToTemplateContext Sample.traversal Sample.transformers
      Sample.schema
      (Some [Sample.locationsQuery; Sample.kindQuery; Sample.locationsQuery]).
Proof.
  apply context_ignores_the_order_of_documents.
  intros doc. simpl. tauto.
Defined.

(* ================================================================== *)
(** ** More on the context *)

Section ContextMore.
Context {traversal : Traversal} {transformers : Transformers}.
Variable schema : GraphQLSchema.

Lemma find_split {A : Type} (p : A -> bool) l x :
  find p l = Some x ->
  exists pre post,
    l = pre ++ x :: post /\ p x = true /\ forall y, In y pre -> p y = false.
Proof.
  induction l as [|a r IH]; simpl; [discriminate|].
  destruct (p a) eqn:E.
  - intros H. inversion H; subst. exists [], r. simpl. tauto.
  - intros H. destruct (IH H) as [pre [post [Hl [Hx Hpre]]]].
    exists (a :: pre), post. subst r. repeat split; auto.
    intros y [<-|Hy]; auto.
Qed.

(** An entry of the array is an entry of the raw map that the filter
    keeps. *)
Lemma In_typesArray documents e :
  In e (typesArrayOf schema documents) ->
  JS.get (getTypeMap schema) (key e) = Some (value e)
  /\ keeps (map name (includeIntrospectionTypes schema documents)) (key e)
     = true.
Proof.
  unfold typesArrayOf. intros H. apply In_objectMapToArray in H.
  destruct H as [Hk Hg]. apply In_keys_clearTypes in Hk.
  destruct Hk as [_ Hs]. rewrite get_clearTypes, Hs in Hg.
  split; [exact Hg|].
  now rewrite <- survives_introspection by apply allowed_names.
Qed.

Lemma unclassifiable_foreign (e : Entry GraphQLNamedType) :
  unclassifiable e = true <-> class (value e) = ForeignClass.
Proof.
  unfold unclassifiable. destruct (class (value e)); simpl; split;
    congruence.
Qed.

Lemma nothing_survives_empty_array documents :
  (forall k, In k (JS.keys (getTypeMap schema)) ->
             keeps (map name (includeIntrospectionTypes schema documents)) k
             = false) ->
  typesArrayOf schema documents = [].
Proof.
  intros H. destruct (typesArrayOf schema documents) as [|e r] eqn:E;
    [reflexivity|].
  assert (He : In e (typesArrayOf schema documents)) by (rewrite E; now left).
  destruct (In_typesArray documents e He) as [Hg Hk].
  rewrite (H (key e)) in Hk; [discriminate|]. eapply get_key_In, Hg.
Qed.

Lemma NoDup_namesIn l (arr : list (Entry GraphQLNamedType)) :
  NoDup (map key arr) -> NoDup (namesIn l arr).
Proof.
  unfold namesIn, routed. induction arr as [|e r IH]; simpl; [constructor|].
  intros Hnd. inversion Hnd as [|? ? He Hr]; subst.
  destruct (goesTo l e); simpl; [|now apply IH].
  constructor; [|now apply IH].
  intros Hin. apply He. apply in_map_iff in Hin.
  destruct Hin as [e' [Hk Hin]]. apply filter_In in Hin.
  rewrite <- Hk. apply in_map. tauto.
Qed.

End ContextMore.

(** X7.  The error names the first unclassifiable type of the filtered
    map: the key it carries is bound in the raw map to the object it
    carries, the filter keeps that key, the object is an instance of none
    of the six classes, and every entry before it in the array is
    classified. *)
Theorem error_names_the_first_unclassifiable_type
  (traversal : Traversal) (transformers : Transformers)
  (schema : GraphQLSchema) (documents : option (list DocumentFile))
  (k : string) (t : GraphQLNamedType) :
  schemaToTemplateContext schema documents
  = Throw (UnexpectedGraphQLTypeDefinition k t) ->
  class t = ForeignClass
  /\ JS.get (getTypeMap schema) k = Some t
  /\ keeps (map name (includeIntrospectionTypes schema documents)) k = true
  /\ exists pre post,
       typesArrayOf schema documents
       = pre ++ {| key := k; value := t |} :: post
       /\ forall e, In e pre -> class (value e) <> ForeignClass.
Proof.
  rewrite schemaToTemplateContext_spec.
  destruct (find unclassifiable _) as [e|] eqn:E; [|discriminate].
  intros H. inversion H; subst. clear H.
  destruct (find_split _ _ _ E) as [pre [post [Hl [Hu Hpre]]]].
  assert (He : In e (typesArrayOf schema documents)).
  { rewrite Hl. apply in_or_app. right. now left. }
  destruct (In_typesArray schema documents e He) as [Hg Hk].
  repeat split; auto.
  - now apply unclassifiable_foreign.
  - exists pre, post. split; [now destruct e|].
    intros e' He' Hc. apply unclassifiable_foreign in Hc.
    rewrite (Hpre e' He') in Hc. discriminate.
Qed.

Lemma error_names_the_first_unclassifiable_type_witness :
  @schemaToTemplateContext Sample.traversal Sample.transformers
    Corner.twoStrangers None
  = Throw (UnexpectedGraphQLTypeDefinition "Stranger" Sample.Stranger)
  /\ exists pre post,
       @typesArrayOf Sample.traversal Corner.twoStrangers None
       = pre ++ {| key := "Stranger"; value := Sample.Stranger |} :: post
       /\ forall e, In e pre -> class (value e) <> ForeignClass.
Proof.
  split; [reflexivity|].
  apply (error_names_the_first_unclassifiable_type
           Sample.traversal Sample.transformers Corner.twoStrangers None
           "Stranger" Sample.Stranger eq_refl).
Defined.

(** X8.  When no name of the type map survives the filter, the call
    returns, whatever objects the map holds, a context whose six lists are
    empty and whose six flags are false. *)
Theorem nothing_survives_gives_empty_lists
  (traversal : Traversal) (transformers : Transformers)
  (schema : GraphQLSchema) (documents : option (list DocumentFile)) :
  (forall k, In k (JS.keys (getTypeMap schema)) ->
             keeps (map name (includeIntrospectionTypes schema documents)) k
             = false) ->
  exists ctx,
    schemaToTemplateContext schema documents = Return ctx
    /\ types ctx = [] /\ inputTypes ctx = [] /\ enums ctx = []
    /\ unions ctx = [] /\ interfaces ctx = [] /\ scalars ctx = []
    /\ hasTypes ctx = false /\ hasInputTypes ctx = false
    /\ hasEnums ctx = false /\ hasUnions ctx = false
    /\ hasInterfaces ctx = false /\ hasScalars ctx = false.
Proof.
  intros H. rewrite schemaToTemplateContext_spec.
  rewrite (nothing_survives_empty_array schema documents H). simpl.
  eexists. split; [reflexivity|]. simpl. repeat split.
Qed.

Lemma nothing_survives_gives_empty_lists_witness :
  exists ctx,
    @schemaToTemplateContext Sample.traversal Sample.transformers
      Corner.reservedOnly None = Return ctx
    /\ types ctx = [] /\ hasTypes ctx = false
    /\ hasDefinedDirectives ctx = true.
Proof.
  destruct (nothing_survives_gives_empty_lists
              Sample.traversal Sample.transformers Corner.reservedOnly None)
    as [ctx [Hret [Ht [_ [_ [_ [_ [_ [Hh _]]]]]]]]].
  - intros k Hk. simpl in Hk.
    repeat (destruct Hk as [<-|Hk]; [reflexivity|]). destruct Hk.
  - exists ctx. repeat split; try assumption.
    inversion Hret. reflexivity.
Defined.

(** X9.  What the context says of directives and of the schema does not
    depend on the documents nor on the types: [rawSchema] is the schema
    passed in, [definedDirectives] the transform of all the directives it
    declares, and two calls on the same schema agree on [directives],
    [usesDirectives], [definedDirectives] and [hasDefinedDirectives]. *)
Theorem directives_do_not_depend_on_documents
  (traversal : Traversal) (transformers : Transformers)
  (schema : GraphQLSchema) (documents documents' : option (list DocumentFile))
  (ctx ctx' : SchemaTemplateContext) :
  schemaToTemplateContext schema documents = Return ctx ->
  schemaToTemplateContext schema documents' = Return ctx' ->
  rawSchema ctx = schema
  /\ definedDirectives ctx
     = transformDirectives schema (GraphQL.getDirectives schema)
  /\ directives ctx = directives ctx'
  /\ usesDirectives ctx = usesDirectives ctx'
  /\ definedDirectives ctx = definedDirectives ctx'
  /\ hasDefinedDirectives ctx = hasDefinedDirectives ctx'.
Proof.
  rewrite !schemaToTemplateContext_spec.
  destruct (find unclassifiable (typesArrayOf schema documents));
    [discriminate|].
  destruct (find unclassifiable (typesArrayOf schema documents'));
    [discriminate|].
  intros H H'. inversion H; inversion H'; subst. simpl. repeat split.
Qed.

Lemma directives_do_not_depend_on_documents_witness :
  exists ctx ctx',
    @schemaToTemplateContext Sample.traversal Sample.transformers
      Sample.schema None = Return ctx
    /\ @schemaToTemplateContext Sample.traversal Sample.transformers
         Sample.schema (Some [Sample.kindQuery]) = Return ctx'
    /\ rawSchema ctx = Sample.schema
    /\ usesDirectives ctx = usesDirectives ctx'.
Proof.
  do 2 eexists. split; [reflexivity|]. split; [reflexivity|].
  destruct (directives_do_not_depend_on_documents
              Sample.traversal Sample.transformers Sample.schema
              None (Some [Sample.kindQuery]) _ _ eq_refl eq_refl)
    as [H1 [_ [_ [H4 _]]]].
  split; assumption.
Defined.

Ltac move_in :=
  repeat first
    [ reflexivity
    | etransitivity; [apply Permutation_middle|];
      apply Permutation_app_head ].

(** The entries of a classified array are shared out among the six
    lists. *)
Lemma routed_partition (arr : list (Entry GraphQLNamedType)) :
  find unclassifiable arr = None ->
  Permutation arr
    (routed Types arr ++ routed InputTypes arr ++ routed Enums arr
     ++ routed Unions arr ++ routed Interfaces arr ++ routed Scalars arr).
Proof.
  induction arr as [|e r IH]; simpl; [reflexivity|].
  destruct (unclassifiable e) eqn:Eu; [discriminate|].
  intros Hc. specialize (IH Hc).
  destruct (goesTo_total e Eu) as [l Hl].
  unfold routed in *. simpl.
  destruct (goesTo Types e) eqn:E1;
    try (pose proof (goesTo_unique _ _ _ Hl E1));
  destruct (goesTo InputTypes e) eqn:E2;
    try (pose proof (goesTo_unique _ _ _ Hl E2));
  destruct (goesTo Enums e) eqn:E3;
    try (pose proof (goesTo_unique _ _ _ Hl E3));
  destruct (goesTo Unions e) eqn:E4;
    try (pose proof (goesTo_unique _ _ _ Hl E4));
  destruct (goesTo Interfaces e) eqn:E5;
    try (pose proof (goesTo_unique _ _ _ Hl E5));
  destruct (goesTo Scalars e) eqn:E6;
    try (pose proof (goesTo_unique _ _ _ Hl E6));
  try congruence;
  try (destruct l; congruence);
  (etransitivity; [apply perm_skip, IH|]); simpl; move_in.
Qed.

(** X10.  In a returned context each output list is made of the records
    of entries with distinct names, so that no name is listed twice in a
    list; the names of the six lists together are the keys of the filtered
    map, each once, so that no name is in two lists and every key has its
    record; and there are never more records than the raw map has keys. *)
Theorem lists_hold_each_name_once
  (traversal : Traversal) (transformers : Transformers)
  (schema : GraphQLSchema) (documents : option (list DocumentFile))
  (ctx : SchemaTemplateContext) :
  schemaToTemplateContext schema documents = Return ctx ->
  let typesArray := typesArrayOf schema documents in
  let filtered :=
    clearTypes (getTypeMap schema)
      (map name (includeIntrospectionTypes schema documents)) in
  (forall l,
      madeOf schema ctx l (routed l typesArray)
      /\ NoDup (map key (routed l typesArray)))
  /\ Permutation
       (namesIn Types typesArray ++ namesIn InputTypes typesArray
        ++ namesIn Enums typesArray ++ namesIn Unions typesArray
        ++ namesIn Interfaces typesArray ++ namesIn Scalars typesArray)
       (JS.keys filtered)
  /\ NoDup (JS.keys filtered)
  /\ recordCount ctx = List.length (JS.keys filtered)
  /\ recordCount ctx <= List.length (JS.keys (getTypeMap schema)).
Proof.
  intros Hret. cbv zeta.
  pose proof (returned_classified schema documents ctx Hret) as Hc.
  pose proof (returned_builtFrom schema documents ctx Hret) as Hb.
  pose proof (builtFrom_count schema ctx _ Hb Hc) as Hn.
  assert (Hkeys : map key (typesArrayOf schema documents)
                  = JS.keys (clearTypes (getTypeMap schema)
                       (map name
                          (includeIntrospectionTypes schema documents)))).
  { unfold typesArrayOf. apply keys_objectMapToArray. }
  assert (Hnd : NoDup (map key (typesArrayOf schema documents))).
  { apply NoDup_keys_filtered. }
  split; [|split; [|split; [|split]]].
  - intros l. split; [apply Hb|].
    now apply (NoDup_namesIn l (typesArrayOf schema documents)).
  - rewrite <- Hkeys. unfold namesIn. rewrite <- !map_app.
    apply Permutation_map. symmetry. now apply routed_partition.
  - now rewrite <- Hkeys.
  - now rewrite Hn, <- Hkeys, length_map.
  - rewrite Hn, <- (length_map key), Hkeys. apply NoDup_incl_length.
    + apply keys_NoDup, wf_clearTypes.
    + intros k Hk. now apply In_keys_clearTypes in Hk.
Qed.

Lemma lists_hold_each_name_once_witness :
  exists ctx,
    @schemaToTemplateContext Sample.traversal Sample.transformers
      Sample.schema (Some [Sample.kindQuery]) = Return ctx
    /\ @enums Sample.transformers ctx
       = ["__TypeKind"; "Zulu"; "Alpha"; "Mike"]
    /\ NoDup (namesIn Enums
                (@typesArrayOf Sample.traversal Sample.schema
                   (Some [Sample.kindQuery])))
    /\ recordCount ctx <= 7.
Proof.
  eexists. split; [reflexivity|].
  destruct (lists_hold_each_name_once Sample.traversal Sample.transformers
              Sample.schema (Some [Sample.kindQuery]) _ eq_refl)
    as [H [_ [_ [_ Hle]]]].
  destruct (H Enums) as [Hm Hnd].
  split; [exact Hm|]. split; [exact Hnd | exact Hle].
Defined.

(** X11.  No primitive scalar name is ever listed, with or without
    documents; a name that starts with [__] is listed only when it is the
    name of an introspection type and is in the allow-list, hence never
    without documents. *)
Theorem reserved_names_are_listed_only_when_allowed
  (traversal : Traversal) (schema : GraphQLSchema)
  (documents : option (list DocumentFile)) (l : OutputList) (T : string) :
  In T (namesIn l (typesArrayOf schema documents)) ->
  ~ In T GRAPHQL_PRIMITIVES
  /\ (JS.startsWith T "__" = true ->
      In T introspectionTypes
      /\ In T (map name (includeIntrospectionTypes schema documents))
      /\ documents <> None).
Proof.
  intros H. apply In_namesIn in H. destruct H as [e [He [<- _]]].
  destruct (In_typesArray schema documents e He) as [_ Hk].
  apply keeps_iff in Hk.
  pose proof (allowed_names schema documents) as Hallow.
  split.
  - destruct Hk as [Hk|[Hk _]]; [|exact Hk].
    now apply (forced_not_primitive _ _ Hallow).
  - intros Hp. destruct Hk as [Hk|[_ Hk]]; [|congruence].
    repeat split; auto.
    intros ->. destruct Hk.
Qed.

Lemma reserved_names_are_listed_only_when_allowed_witness :
  ~ In "__TypeKind" GRAPHQL_PRIMITIVES
  /\ (JS.startsWith "__TypeKind" "__" = true ->
      In "__TypeKind" introspectionTypes
      /\ In "__TypeKind"
           (map name
              (@includeIntrospectionTypes Sample.traversal Sample.schema
                 (Some [Sample.kindQuery])))
      /\ Some [Sample.kindQuery] <> None).
Proof.
  apply (reserved_names_are_listed_only_when_allowed
           Sample.traversal Sample.schema (Some [Sample.kindQuery]) Enums).
  simpl. tauto.
Defined.

(* ================================================================== *)
(** ** What documents change *)

Section DocumentsEffect.
Context {traversal : Traversal} {transformers : Transformers}.
Variable schema : GraphQLSchema.
Variable docs : list DocumentFile.

Local Abbreviation forced :=
  (map name (includeIntrospectionTypes schema (Some docs))).

Hypothesis wellFormed : JS.wf (getTypeMap schema).
Hypothesis ownTypes :
  forall E, In E (includeIntrospectionTypes schema (Some docs)) ->
            JS.get (getTypeMap schema) (name E) = Some E.

Lemma forced_introspection n : In n forced -> In n introspectionTypes.
Proof. apply allowed_names. Qed.

Lemma survives_without_documents k :
  survives [] k = survives forced k && negb (JS.includes forced k).
Proof.
  rewrite (survives_introspection [] k) by (intros n []).
  rewrite (survives_introspection forced k) by apply forced_introspection.
  unfold keeps. change (JS.includes [] k) with false.
  destruct (JS.includes forced k) eqn:E; cbn [orb andb negb];
    [|now rewrite andb_true_r].
  apply JSFacts.includes_In in E.
  destruct (forced_not_primitive forced k forced_introspection E) as [_ Hp].
  rewrite Hp. now rewrite !andb_false_r.
Qed.

(** The array without documents is the array with documents less the
    entries of the allow-list. *)
Lemma array_without_documents :
  typesArrayOf schema None
  = filter (fun e => negb (JS.includes forced (key e)))
           (typesArrayOf schema (Some docs)).
Proof.
  unfold typesArrayOf. simpl includeIntrospectionTypes at 1. simpl map at 1.
  rewrite !objectMapToArray_clearTypes by assumption.
  rewrite filter_filter. apply filter_ext.
  intros e. apply survives_without_documents.
Qed.

(** The entries the allow-list brings are enums. *)
Lemma forced_entry_is_enum e :
  In e (typesArrayOf schema (Some docs)) ->
  JS.includes forced (key e) = true ->
  class (value e) = GraphQLEnumType.
Proof.
  intros He Hf. apply JSFacts.includes_In in Hf.
  apply in_map_iff in Hf. destruct Hf as [E [Hn HE]].
  destruct (In_typesArray schema (Some docs) e He) as [Hg _].
  rewrite <- Hn, (ownTypes E HE) in Hg. inversion Hg; subst.
  apply In_includeIntrospectionTypes in HE.
  destruct HE as [doc [ty [_ [_ [_ [_ Hq]]]]]].
  unfold isEnumType in Hq.
  now destruct (TypeClass_eq_dec (class (value e)) GraphQLEnumType).
Qed.

Lemma routed_without_documents l :
  l <> Enums ->
  routed l (typesArrayOf schema None)
  = routed l (typesArrayOf schema (Some docs)).
Proof.
  intros Hl. rewrite array_without_documents. unfold routed.
  apply filter_implied. intros e He Hg.
  destruct (JS.includes forced (key e)) eqn:E; [|reflexivity].
  exfalso. apply Hl. apply (goesTo_unique l Enums e Hg).
  unfold goesTo. now rewrite (forced_entry_is_enum e He E).
Qed.

Lemma enums_without_documents :
  routed Enums (typesArrayOf schema None)
  = filter (fun e => negb (JS.includes forced (key e)))
           (routed Enums (typesArrayOf schema (Some docs))).
Proof.
  rewrite array_without_documents. unfold routed.
  apply JSFacts.filter_comm.
Qed.

Lemma classified_without_documents :
  find unclassifiable (typesArrayOf schema (Some docs)) = None <->
  find unclassifiable (typesArrayOf schema None) = None.
Proof.
  rewrite !find_unclassifiable_None, array_without_documents. split.
  - intros H e He. apply filter_In in He. now apply H.
  - intros H e He Hc.
    destruct (JS.includes forced (key e)) eqn:E.
    + rewrite (forced_entry_is_enum e He E) in Hc. discriminate.
    + apply (H e); [|exact Hc]. apply filter_In. now rewrite E.
Qed.

End DocumentsEffect.

(** X12.  Documents can only add introspection enums.  On a schema whose
    type map binds the collected types under their names, the call with
    documents returns exactly when the call without documents does; the
    two contexts have the same [types], [inputTypes], [unions],
    [interfaces] and [scalars], and the [enums] without documents are the
    [enums] with documents less those of the allow-list. *)
Theorem documents_only_add_enums
  (traversal : Traversal) (transformers : Transformers)
  (schema : GraphQLSchema) (docs : list DocumentFile) :
  JS.wf (getTypeMap schema) ->
  (forall E, In E (includeIntrospectionTypes schema (Some docs)) ->
             JS.get (getTypeMap schema) (name E) = Some E) ->
  ((exists ctx, schemaToTemplateContext schema (Some docs) = Return ctx) <->
   (exists ctx0, schemaToTemplateContext schema None = Return ctx0))
  /\ forall ctx ctx0,
       schemaToTemplateContext schema (Some docs) = Return ctx ->
       schemaToTemplateContext schema None = Return ctx0 ->
       types ctx0 = types ctx
       /\ inputTypes ctx0 = inputTypes ctx
       /\ unions ctx0 = unions ctx
       /\ interfaces ctx0 = interfaces ctx
       /\ scalars ctx0 = scalars ctx
       /\ enums ctx0
          = map (fun e => transformGraphQLEnum schema (value e))
              (filter
                 (fun e =>
                    negb (JS.includes
                            (map name
                               (includeIntrospectionTypes schema (Some docs)))
                            (key e)))
                 (routed Enums (typesArrayOf schema (Some docs))))
       /\ List.length (enums ctx0) <= List.length (enums ctx).
Proof.
  intros Hwf Hown. split.
  - pose proof (classified_without_documents schema docs Hwf Hown) as Hc.
    rewrite !schemaToTemplateContext_spec. split; intros [c Hret].
    + destruct (find unclassifiable (typesArrayOf schema (Some docs)));
        [discriminate|].
      rewrite (proj1 Hc eq_refl). eauto.
    + destruct (find unclassifiable (typesArrayOf schema None));
        [discriminate|].
      rewrite (proj2 Hc eq_refl). eauto.
  - intros ctx ctx0 Hret Hret0.
    pose proof (returned_builtFrom schema _ ctx Hret) as Hb.
    pose proof (returned_builtFrom schema _ ctx0 Hret0) as Hb0.
    pose proof (routed_without_documents schema docs Hwf Hown) as Hr.
    pose proof (enums_without_documents schema docs Hwf) as He.
    repeat split.
    + rewrite (Hb0 Types), (Hb Types), Hr; [reflexivity | discriminate].
    + rewrite (Hb0 InputTypes), (Hb InputTypes), Hr;
        [reflexivity | discriminate].
    + rewrite (Hb0 Unions), (Hb Unions), Hr; [reflexivity | discriminate].
    + rewrite (Hb0 Interfaces), (Hb Interfaces), Hr;
        [reflexivity | discriminate].
    + rewrite (Hb0 Scalars), (Hb Scalars), Hr; [reflexivity | discriminate].
    + rewrite (Hb0 Enums), He. reflexivity.
    + rewrite (Hb0 Enums), (Hb Enums), He, !length_map.
      apply filter_length_le.
Qed.

Lemma documents_only_add_enums_witness :
  exists ctx ctx0,
    @schemaToTemplateContext Sample.traversal Sample.transformers
      Sample.schema (Some [Sample.kindQuery]) = Return ctx
    /\ @schemaToTemplateContext Sample.traversal Sample.transformers
         Sample.schema None = Return ctx0
    /\ types ctx0 = types ctx
    /\ List.length (enums ctx0) <= List.length (enums ctx).
Proof.
  do 2 eexists. split; [reflexivity|]. split; [reflexivity|].
  destruct (documents_only_add_enums Sample.traversal Sample.transformers
              Sample.schema [Sample.kindQuery]) as [_ H].
  - unfold JS.wf. simpl.
    repeat (constructor; [simpl; intuition discriminate|]). constructor.
  - intros E [<-|[]]. reflexivity.
  - destruct (H _ _ eq_refl eq_refl) as [H1 [_ [_ [_ [_ [_ H7]]]]]].
    split; assumption.
Defined.
